(** * The tool layer of video-edit-mcp

    A shallow embedding of [src/video_edit_mcp/video_operations.py]: the
    nineteen tools registered by [register_video_tools], written in a small
    state-and-exception monad over an explicit world (the two object
    stores, the state of the media engine, the trace of external calls and
    the error log).

    The media engine (moviepy, imageio, os) is external to the repository;
    it is a record of operations the development is parametric in.  A
    Python [float] is an IEEE 754 binary64 number, Rocq's primitive
    [float]: comparisons are false on NaN, and sums, products and
    quotients are rounded as Python rounds them.  A [str] is kept as its
    UTF-8 bytes where the code only concatenates and compares it, and as
    its code points where the code strips it ([text] of
    [add_text_overlay]).  Python exceptions are the instances of
    [Exception]; asynchronous [BaseException]s (a keyboard interrupt) are
    outside the model. *)

From Stdlib Require Import Ascii String ZArith QArith Qabs Qround Floats.
From stdpp Require Import gmap strings list pretty.

Set Warnings "-inexact-float".
Local Open Scope string_scope.

(** ** Python values and helpers *)

(** The dynamically typed values the tools put in dictionaries or receive
    where the code tests the type at run time. *)
Inductive PyVal :=
| VNone
| VBool (b : bool)
| VInt (z : Z)
| VFloat (x : float)
| VStr (s : string)
| VPair (a b : PyVal).

(** A [dict] with string keys, in insertion order. *)
Definition PyDict := list (string * PyVal).

Fixpoint dict_set (k : string) (v : PyVal) (d : PyDict) : PyDict :=
  match d with
  | [] => [(k, v)]
  | (k', v') :: d' =>
      if String.eqb k k' then (k, v) :: d' else (k', v') :: dict_set k v d'
  end.

(** [d.update(upd)] *)
Definition dict_update (d upd : PyDict) : PyDict :=
  fold_left (fun acc kv => dict_set (fst kv) (snd kv) acc) upd d.

(** [d.get(k)] *)
Fixpoint dict_get (k : string) (d : PyDict) : option PyVal :=
  match d with
  | [] => None
  | (k', v) :: d' => if String.eqb k k' then Some v else dict_get k d'
  end.

(** [{k: v for k, v in d.items() if v is not None}] *)
Definition drop_none (d : PyDict) : PyDict :=
  List.filter (fun kv => match snd kv with VNone => false | _ => true end) d.

Definition opt_val {A} (f : A -> PyVal) (o : option A) : PyVal :=
  match o with Some a => f a | None => VNone end.

(** An instance of [Exception]: [type(e).__name__] and [str(e)]. *)
Record Exn := mkExn { exn_type : string; exn_msg : string }.

(** ** Floats

    [x < y], [x <= y] and [x == y] on floats are [PrimFloat.ltb],
    [PrimFloat.leb] and [PrimFloat.eqb]; [x >= y] is [y <= x]. *)

Definition Qltb (x y : Q) : bool := negb (Qle_bool y x).

(** The integer nearest to a rational, ties to even. *)
Definition round_half_even (x : Q) : Z :=
  let f := Qfloor x in
  let r := (x - inject_Z f)%Q in
  if Qltb r (1 # 2) then f
  else if Qltb (1 # 2) r then (f + 1)%Z
  else if Z.even f then f else (f + 1)%Z.

(** The exact value of a finite float. *)
Definition float_to_Q (x : float) : option Q :=
  match Prim2SF x with
  | S754_zero _ => Some 0%Q
  | S754_finite s m e =>
      Some ((if s then -1 else 1) * inject_Z (Zpos m) * Qpower 2 e)%Q
  | _ => None
  end.

(** The float nearest to a rational, ties to even: with [2^e <= |q| <
    2^(e+1)], the nearest multiple of [2^(e-52)], or of [2^(-1074)] for a
    subnormal.  A rational beyond the largest float gives an infinity,
    where Python's conversion of an [int] raises [OverflowError]: the
    integers of the model (pixel counts, file sizes) are far below. *)
Definition Q_to_float (q : Q) : float :=
  match Qnum q with
  | Z0 => 0%float
  | _ =>
      let a := Qabs q in
      let e0 := (Z.log2 (Qnum a) - Z.log2 (Zpos (Qden a)))%Z in
      let e := if Qle_bool (Qpower 2 e0) a then e0 else (e0 - 1)%Z in
      let ex := Z.max (e - 52) (-1074) in
      match round_half_even (a / Qpower 2 ex) with
      | Zpos m => SF2Prim (S754_finite (Qnum q <? 0)%Z m ex)
      | _ => if (Qnum q <? 0)%Z then (-0)%float else 0%float
      end
  end.

(** [float(n)] for an [int]. *)
Definition float_of_int (n : Z) : float := Q_to_float (inject_Z n).

(** [a / b] for two [int]s, [b] not 0: the float nearest to the
    quotient. *)
Definition int_truediv (a b : Z) : float :=
  Q_to_float (inject_Z a / inject_Z b).

(** Truncation towards zero. *)
Definition Qtrunc (q : Q) : Z :=
  if Qle_bool 0 q then Qfloor q else Qceiling q.

(** [int(x)] for a float: it raises on NaN and on the infinities. *)
Definition py_int (x : float) : Exn + Z :=
  match float_to_Q x with
  | Some q => inr (Qtrunc q)
  | None =>
      if PrimFloat.is_nan x
      then inl (mkExn "ValueError" "cannot convert float NaN to integer")
      else inl (mkExn "OverflowError"
                      "cannot convert float infinity to integer")
  end.

(** [round(x, 2)]: the exact value of [x] is rounded to the nearest
    hundredth, ties to even, and the result is the float nearest to that
    decimal; the sign of a zero is the sign of [x]; NaN and the infinities
    are returned as they are. *)
Definition py_round2 (x : float) : float :=
  match float_to_Q x with
  | Some q =>
      let r := Q_to_float (inject_Z (round_half_even (q * 100)) / 100) in
      if PrimFloat.is_zero r && PrimFloat.get_sign x then (-0)%float else r
  | None => x
  end.

(** Truth value of a float: [0.0] and [-0.0] are false, NaN is true. *)
Definition float_truthy (x : float) : bool := negb (x =? 0)%float.

(** [sum(l)] for a list of floats: the additions are made from the left,
    each rounded. *)
Definition py_sum (l : list float) : float :=
  fold_left PrimFloat.add l 0%float.

(** The sum of finite floats as real numbers, nothing being rounded. *)
Fixpoint exact_sum (l : list float) : option Q :=
  match l with
  | [] => Some 0%Q
  | x :: l' =>
      match float_to_Q x, exact_sum l' with
      | Some q, Some s => Some (q + s)%Q
      | _, _ => None
      end
  end.

(** ** Strings *)

(** A [str] as the sequence of its code points. *)
Definition Text := list N.

(** [str.isspace] on one code point: the whitespace of Unicode, which
    [str.strip()] removes. *)
Definition is_space (c : N) : bool :=
  ((9 <=? c) && (c <=? 13) || (28 <=? c) && (c <=? 32)
   || (c =? 133) || (c =? 160) || (c =? 5760)
   || (8192 <=? c) && (c <=? 8202)
   || (c =? 8232) || (c =? 8233) || (c =? 8239) || (c =? 8287)
   || (c =? 12288))%N.

Fixpoint lstrip (s : Text) : Text :=
  match s with
  | c :: s' => if is_space c then lstrip s' else s
  | [] => []
  end.

Fixpoint rstrip (s : Text) : Text :=
  match s with
  | c :: s' =>
      match rstrip s' with
      | [] => if is_space c then [] else [c]
      | t => c :: t
      end
  | [] => []
  end.

(** [s.strip()] *)
Definition py_strip (s : Text) : Text := rstrip (lstrip s).

(** Truth value of a string: [not s] is [negb (text_truthy s)]. *)
Definition text_truthy (s : Text) : bool :=
  match s with [] => false | _ => true end.

Definition str_truthy (s : string) : bool :=
  match s with EmptyString => false | _ => true end.

Fixpoint last_char (s : string) : option ascii :=
  match s with
  | EmptyString => None
  | String c EmptyString => Some c
  | String _ s' => last_char s'
  end.

Definition is_slash (c : ascii) : bool := Ascii.eqb c "/"%char.

(** [os.path.join(a, b)] on a POSIX system. *)
Definition os_path_join (a b : string) : string :=
  match b with
  | String c _ =>
      if is_slash c then b
      else match last_char a with
           | None => b
           | Some l => if is_slash l then a ++ b else a ++ "/" ++ b
           end
  | EmptyString =>
      match last_char a with
      | None => b
      | Some l => if is_slash l then a else a ++ "/"
      end
  end.

(** [os.path.basename(p)]: what follows the last slash. *)
Fixpoint basename_from (acc : string) (p : string) : string :=
  match p with
  | EmptyString => acc
  | String c p' =>
      if is_slash c then basename_from p' p' else basename_from acc p'
  end.

Definition os_path_basename (p : string) : string := basename_from p p.

(** [f"{i:04d}"] for a natural number. *)
Definition pad4 (i : nat) : string :=
  let s := pretty i in
  String.concat "" (replicate (4 - String.length s) "0") ++ s.

(** ** Exceptions *)

(** The builtin classes an [except OSError] clause catches. *)
Definition oserror_names : list string :=
  ["OSError"; "IOError"; "EnvironmentError"; "FileNotFoundError";
   "FileExistsError"; "PermissionError"; "IsADirectoryError";
   "NotADirectoryError"; "BlockingIOError"; "InterruptedError";
   "TimeoutError"; "ConnectionError"; "BrokenPipeError";
   "ConnectionAbortedError"; "ConnectionRefusedError";
   "ConnectionResetError"; "ChildProcessError"; "ProcessLookupError"].

Definition is_OSError (e : Exn) : bool :=
  existsb (String.eqb (exn_type e)) oserror_names.

(** An external computation over a state [S]: it raises or returns. *)
Definition Eff (S A : Type) : Type := S -> (Exn + A) * S.

(** ** The media engine *)

(** The attributes of a clip that the tools read: [duration] and [fps] are
    floats, [w] and [h] are [int]s (pixel counts). *)
Record ReaderInfo := mkReaderInfo {
  r_nframes : option Z;
  r_bitrate : option Z;
  r_codec : option string;
  r_pix_fmt : option string }.

Record AudioReaderInfo := mkAudioReaderInfo {
  ar_bitrate : option Z;
  ar_codec : option string;
  ar_fps : option Z }.

Record AudioMeta := mkAudioMeta {
  a_duration : float;
  a_fps : Z;
  a_nchannels : option Z;
  a_reader : option AudioReaderInfo }.

Record ClipMeta := mkClipMeta {
  duration : float;
  fps : float;
  clip_w : Z;   (* video.w *)
  clip_h : Z;   (* video.h *)
  reader : option ReaderInfo;
  audio : option AudioMeta }.

(** The operations of moviepy, imageio and os that the tools call. *)
Inductive EngineOp :=
| OpVideoFileClip | OpAudioFileClip | OpImageClip | OpTextClip
| OpImageSequenceClip | OpSubclip | OpConcatenate | OpResize | OpCrop
| OpRotate | OpSpeedx | OpSetAudio | OpFadein | OpFadeout
| OpChangeSettings | OpSetPosition | OpSetDuration | OpSetOpacity
| OpCompositeVideoClip | OpBlackwhite | OpMirrorX | OpIterFrames
| OpWriteVideofile | OpClose | OpMakedirs | OpImwrite | OpGetsize.

Record Engine (Clip AudioClip Frame ES : Type) := mkEngine {
  clip_meta : Clip -> ClipMeta;
  e_VideoFileClip : string -> Eff ES Clip;
  e_AudioFileClip : string -> Eff ES AudioClip;
  e_ImageClip : string -> Eff ES Clip;
  e_TextClip : Text -> Z -> string -> Eff ES Clip;
  e_ImageSequenceClip : string -> Z -> Eff ES Clip;
  e_subclip : Clip -> float -> float -> Eff ES Clip;
  e_concatenate_videoclips : list Clip -> Eff ES Clip;
  e_resize : Clip -> list Z -> Eff ES Clip;
  e_crop : Clip -> Z -> Z -> Z -> Z -> Eff ES Clip;
  e_rotate : Clip -> PyVal -> Eff ES Clip;
  e_speedx : Clip -> float -> Eff ES Clip;
  e_set_audio : Clip -> AudioClip -> Eff ES Clip;
  e_fadein : Clip -> float -> Eff ES Clip;
  e_fadeout : Clip -> float -> Eff ES Clip;
  e_change_settings : string -> Eff ES unit;
  e_set_position : Clip -> Z -> Z -> Eff ES Clip;
  e_set_duration : Clip -> float -> Eff ES Clip;
  e_set_opacity : Clip -> float -> Eff ES Clip;
  e_CompositeVideoClip : list Clip -> Eff ES Clip;
  e_blackwhite : Clip -> Eff ES Clip;
  e_mirror_x : Clip -> Eff ES Clip;
  e_iter_frames : Clip -> Z -> Eff ES (list Frame);
  e_write_videofile : Clip -> string -> PyDict -> Eff ES unit;
  e_close : Clip -> Eff ES unit;
  e_makedirs : string -> Eff ES unit;
  e_imwrite : string -> Frame -> Eff ES unit;
  e_getsize : string -> Eff ES Z }.

Arguments clip_meta {Clip AudioClip Frame ES}.
Arguments e_VideoFileClip {Clip AudioClip Frame ES}.
Arguments e_AudioFileClip {Clip AudioClip Frame ES}.
Arguments e_ImageClip {Clip AudioClip Frame ES}.
Arguments e_TextClip {Clip AudioClip Frame ES}.
Arguments e_ImageSequenceClip {Clip AudioClip Frame ES}.
Arguments e_subclip {Clip AudioClip Frame ES}.
Arguments e_concatenate_videoclips {Clip AudioClip Frame ES}.
Arguments e_resize {Clip AudioClip Frame ES}.
Arguments e_crop {Clip AudioClip Frame ES}.
Arguments e_rotate {Clip AudioClip Frame ES}.
Arguments e_speedx {Clip AudioClip Frame ES}.
Arguments e_set_audio {Clip AudioClip Frame ES}.
Arguments e_fadein {Clip AudioClip Frame ES}.
Arguments e_fadeout {Clip AudioClip Frame ES}.
Arguments e_change_settings {Clip AudioClip Frame ES}.
Arguments e_set_position {Clip AudioClip Frame ES}.
Arguments e_set_duration {Clip AudioClip Frame ES}.
Arguments e_set_opacity {Clip AudioClip Frame ES}.
Arguments e_CompositeVideoClip {Clip AudioClip Frame ES}.
Arguments e_blackwhite {Clip AudioClip Frame ES}.
Arguments e_mirror_x {Clip AudioClip Frame ES}.
Arguments e_iter_frames {Clip AudioClip Frame ES}.
Arguments e_write_videofile {Clip AudioClip Frame ES}.
Arguments e_close {Clip AudioClip Frame ES}.
Arguments e_makedirs {Clip AudioClip Frame ES}.
Arguments e_imwrite {Clip AudioClip Frame ES}.
Arguments e_getsize {Clip AudioClip Frame ES}.

(** What the tools did outside themselves, oldest first. *)
Inductive Event :=
| EvEngine (op : EngineOp)
| EvVideoStoreLoad (identifier : string)
| EvVideoStoreStore (ref : string)
| EvAudioStoreLoad (identifier : string).

(** ** The world the tools run in *)

Record World (Clip AudioClip ES : Type) := mkWorld {
  video_store : gmap string Clip;       (* VideoStore *)
  audio_store : gmap string AudioClip;  (* AudioStore *)
  engine_state : ES;
  trace : list Event;
  errlog : list string                  (* records of logger.error *) }.

Arguments mkWorld {Clip AudioClip ES}.
Arguments video_store {Clip AudioClip ES}.
Arguments audio_store {Clip AudioClip ES}.
Arguments engine_state {Clip AudioClip ES}.
Arguments trace {Clip AudioClip ES}.
Arguments errlog {Clip AudioClip ES}.

(** ** The result envelope *)

(** The value under ["output_object"]: a reference, or raw frames. *)
Inductive ObjVal (Frame : Type) :=
| ORef (ref : string)
| OFrames (frames : list Frame).

Arguments ORef {Frame}.
Arguments OFrames {Frame}.

(** The dictionary a tool returns; an absent key is [None]. *)
Record Envelope (Frame : Type) := mkEnvelope {
  success : bool;
  output_path : option string;
  output_paths : option (list string);
  output_object : option (ObjVal Frame);
  output_objects : option (list string);
  video_info : option PyDict;
  message : option string;
  error : option string;
  error_type : option string }.

Arguments mkEnvelope {Frame}.
Arguments success {Frame}.
Arguments output_path {Frame}.
Arguments output_paths {Frame}.
Arguments output_object {Frame}.
Arguments output_objects {Frame}.
Arguments video_info {Frame}.
Arguments message {Frame}.
Arguments error {Frame}.
Arguments error_type {Frame}.

(** [{"success": True, "output_path": p, "message": msg}] *)
Definition ok_path {Frame} (p msg : string) : Envelope Frame :=
  mkEnvelope true (Some p) None None None None (Some msg) None None.

(** [{"success": True, "output_object": o}], with a message or not *)
Definition ok_object {Frame} (o : ObjVal Frame) (msg : option string)
    : Envelope Frame :=
  mkEnvelope true None None (Some o) None None msg None None.

(** [{"success": False, "error": err, "message": msg}] *)
Definition invalid {Frame} (err msg : string) : Envelope Frame :=
  mkEnvelope false None None None None None (Some msg) (Some err) None.

(** [{"success": False, "error": str(e), "error_type": type(e).__name__}],
    with a message or not *)
Definition failed {Frame} (e : Exn) (msg : option string) : Envelope Frame :=
  mkEnvelope false None None None None None msg
             (Some (exn_msg e)) (Some (exn_type e)).

(** ** A reference engine

    A small engine for the examples.  A clip is its metadata and the
    engine's state is the set of video files on disk.  Its [subclip]
    follows moviepy 1.0.3: a negative time counts from the end of the
    clip, a start beyond the duration is refused, the frame at the start
    is read, and the result lasts the difference of the two times, in
    floating point. *)

Record SimClip := mkSimClip {
  sim_duration : float;
  sim_fps : float;
  sim_w : Z;
  sim_h : Z }.

Definition SimDisk := list (string * SimClip).

Fixpoint sim_find (p : string) (d : SimDisk) : option SimClip :=
  match d with
  | [] => None
  | (p', c) :: d' => if String.eqb p p' then Some c else sim_find p d'
  end.

Definition sim_pure {A} (a : A) : Eff SimDisk A := fun d => (inr a, d).

Definition sim_raise {A} (ty msg : string) : Eff SimDisk A :=
  fun d => (inl (mkExn ty msg), d).

Definition sim_open (p : string) : Eff SimDisk SimClip :=
  fun d =>
    match sim_find p d with
    | Some c => (inr c, d)
    | None =>
        (inl (mkExn "OSError"
                ("MoviePy error: the file " ++ p ++ " could not be found!")),
         d)
    end.

Definition sim_with_duration (c : SimClip) (d : float) : SimClip :=
  mkSimClip d (sim_fps c) (sim_w c) (sim_h c).

Definition sim_subclip (c : SimClip) (s e : float) : Eff SimDisk SimClip :=
  let d := sim_duration c in
  let t_start := if (s <? 0)%float then (d + s)%float else s in
  if (d <? t_start)%float then
    sim_raise "ValueError"
      "t_start should be smaller than the clip's duration"
  else
    (* the reader seeks the frame number [int(fps * t + 0.00001)] *)
    match py_int (sim_fps c * t_start + 0.00001)%float with
    | inl ex => fun disk => (inl ex, disk)
    | inr _ =>
        let t_end := if (e <? 0)%float then (d + e)%float else e in
        sim_pure (sim_with_duration c (t_end - t_start)%float)
    end.

Definition sim_resize (c : SimClip) (size : list Z) : Eff SimDisk SimClip :=
  match size with
  | [width; height] =>
      sim_pure (mkSimClip (sim_duration c) (sim_fps c) width height)
  | _ => sim_raise "ValueError" "newsize must be a pair"
  end.

(** The frames of a clip sampled at [fps], by index: one every [1 / fps]
    seconds from 0, up to the duration excluded. *)
Definition sim_frames (c : SimClip) (fps : Z) : list nat :=
  match float_to_Q (sim_duration c / (1 / float_of_int fps))%float with
  | Some n => seq 0 (Z.to_nat (Qceiling n))
  | None => []
  end.

Definition sim_engine : Engine SimClip unit nat SimDisk :=
  {| clip_meta c :=
       mkClipMeta (sim_duration c) (sim_fps c) (sim_w c) (sim_h c) None None;
     e_VideoFileClip := sim_open;
     e_AudioFileClip p := sim_pure tt;
     e_ImageClip p := sim_pure (mkSimClip 0 0 64 64);
     e_TextClip t sz col := sim_pure (mkSimClip 0 0 64 sz);
     e_ImageSequenceClip folder f :=
       sim_pure (mkSimClip 1 (float_of_int f) 64 64);
     e_subclip := sim_subclip;
     e_concatenate_videoclips cs :=
       match cs with
       | c :: _ =>
           sim_pure (sim_with_duration c
                       (fold_left PrimFloat.add (map sim_duration cs)
                                  0%float))
       | [] => sim_raise "IndexError" "list index out of range"
       end;
     e_resize := sim_resize;
     e_crop c x1 y1 x2 y2 :=
       sim_pure (mkSimClip (sim_duration c) (sim_fps c)
                           (x2 - x1)%Z (y2 - y1)%Z);
     e_rotate c a := sim_pure c;
     e_speedx c f :=
       sim_pure (sim_with_duration c (sim_duration c / f)%float);
     e_set_audio c a := sim_pure c;
     e_fadein c d := sim_pure c;
     e_fadeout c d := sim_pure c;
     e_change_settings p := sim_pure tt;
     e_set_position c x y := sim_pure c;
     e_set_duration c d := sim_pure (sim_with_duration c d);
     e_set_opacity c o := sim_pure c;
     e_CompositeVideoClip cs :=
       match cs with
       | c :: _ => sim_pure c
       | [] => sim_raise "IndexError" "list index out of range"
       end;
     e_blackwhite c := sim_pure c;
     e_mirror_x c := sim_pure c;
     e_iter_frames c f :=
       if (f =? 0)%Z then
         sim_raise "ZeroDivisionError" "float division by zero"
       else sim_pure (sim_frames c f);
     e_write_videofile c p kw := fun d => (inr tt, (p, c) :: d);
     e_close c := sim_pure tt;
     e_makedirs p := sim_pure tt;
     e_imwrite p f := sim_pure tt;
     e_getsize p :=
       fun d =>
         match sim_find p d with
         | Some _ => (inr 1000000%Z, d)
         | None =>
             (inl (mkExn "FileNotFoundError"
                     ("No such file or directory: " ++ p)), d)
         end |}.

(** The path resolver of the examples. *)
Definition sim_output_path (name : string) : string := "/out/" ++ name.

(** A ten-second video. *)
Definition sim_clip : SimClip := mkSimClip 10 24 640 480.

(** The video on disk as [in.mp4], and empty stores. *)
Definition sim_world : World SimClip unit SimDisk :=
  mkWorld ∅ ∅ [("in.mp4", sim_clip)] [] [].

(** A seven-second video on disk as [in.mp4], and empty stores. *)
Definition sim_world_7 : World SimClip unit SimDisk :=
  mkWorld ∅ ∅ [("in.mp4", mkSimClip 7 24 640 480)] [] [].

(** A video of 107 by 40 pixels on disk as [n.mp4], 10.01 seconds at
    30000/1001 frames per second. *)
Definition sim_world_ntsc : World SimClip unit SimDisk :=
  mkWorld ∅ ∅ [("n.mp4", mkSimClip 10.01 (30000 / 1001) 107 40)] [] [].

(** The same clip cached under the reference ["0"], and no file on disk. *)
Definition sim_world_ref : World SimClip unit SimDisk :=
  mkWorld {["0" := sim_clip]} ∅ [] [] [].

(** The reference engine on a file system that refuses to tell the size of
    a file: [os.path.getsize] raises [PermissionError], an [OSError]. *)
Definition sim_engine_no_stat : Engine SimClip unit nat SimDisk :=
  {| clip_meta := clip_meta sim_engine;
     e_VideoFileClip := e_VideoFileClip sim_engine;
     e_AudioFileClip := e_AudioFileClip sim_engine;
     e_ImageClip := e_ImageClip sim_engine;
     e_TextClip := e_TextClip sim_engine;
     e_ImageSequenceClip := e_ImageSequenceClip sim_engine;
     e_subclip := e_subclip sim_engine;
     e_concatenate_videoclips := e_concatenate_videoclips sim_engine;
     e_resize := e_resize sim_engine;
     e_crop := e_crop sim_engine;
     e_rotate := e_rotate sim_engine;
     e_speedx := e_speedx sim_engine;
     e_set_audio := e_set_audio sim_engine;
     e_fadein := e_fadein sim_engine;
     e_fadeout := e_fadeout sim_engine;
     e_change_settings := e_change_settings sim_engine;
     e_set_position := e_set_position sim_engine;
     e_set_duration := e_set_duration sim_engine;
     e_set_opacity := e_set_opacity sim_engine;
     e_CompositeVideoClip := e_CompositeVideoClip sim_engine;
     e_blackwhite := e_blackwhite sim_engine;
     e_mirror_x := e_mirror_x sim_engine;
     e_iter_frames := e_iter_frames sim_engine;
     e_write_videofile := e_write_videofile sim_engine;
     e_close := e_close sim_engine;
     e_makedirs := e_makedirs sim_engine;
     e_imwrite := e_imwrite sim_engine;
     e_getsize p := sim_raise "PermissionError" ("Permission denied: " ++ p) |}.

Section ToolLayer.

Context {Clip AudioClip Frame ES : Type}.
Variable eng : Engine Clip AudioClip Frame ES.

(** Modelled from the spec: [get_output_path] of [utils.py] is not part of
    the sources; the spec gives the path resolver as a pure function from
    the requested output name to an output location. *)
Variable get_output_path : string -> string.

Local Abbreviation World := (World Clip AudioClip ES).
Local Abbreviation Envelope := (Envelope Frame).

(** ** The monad of the tools *)

Definition M (A : Type) : Type := World -> (Exn + A) * World.

Definition ret {A} (a : A) : M A := fun w => (inr a, w).

Definition bind {A B} (m : M A) (k : A -> M B) : M B :=
  fun w =>
    match m w with
    | (inl e, w') => (inl e, w')
    | (inr a, w') => k a w'
    end.

Definition raise {A} (e : Exn) : M A := fun w => (inl e, w).

(** A pure computation that raises or returns. *)
Definition lift {A} (r : Exn + A) : M A := fun w => (r, w).

(** [try: a = m  except OSError: a = None]; other exceptions go on. *)
Definition catch_OSError {A} (m : M A) : M (option A) :=
  fun w =>
    match m w with
    | (inr a, w') => (inr (Some a), w')
    | (inl e, w') => if is_OSError e then (inr None, w') else (inl e, w')
    end.

Notation "x <- c1 ;; c2" := (bind c1 (fun x => c2))
  (at level 100, c1 at next level, right associativity).

Definition log_event (ev : Event) (w : World) : World :=
  mkWorld (video_store w) (audio_store w) (engine_state w)
          (trace w ++ [ev]) (errlog w).

(** [logger.error(msg)] *)
Definition logger_error (msg : string) (w : World) : World :=
  mkWorld (video_store w) (audio_store w) (engine_state w)
          (trace w) (errlog w ++ [msg]).

(** One call to the engine: it runs on the engine's state and is traced. *)
Definition engine {A} (op : EngineOp) (f : Eff ES A) : M A :=
  fun w =>
    let '(r, s) := f (engine_state w) in
    (r, mkWorld (video_store w) (audio_store w) s
                (trace w ++ [EvEngine op]) (errlog w)).

Definition VideoFileClip p := engine OpVideoFileClip (e_VideoFileClip eng p).
Definition AudioFileClip p := engine OpAudioFileClip (e_AudioFileClip eng p).
Definition ImageClip p := engine OpImageClip (e_ImageClip eng p).
Definition TextClip t sz col := engine OpTextClip (e_TextClip eng t sz col).
Definition ImageSequenceClip d f :=
  engine OpImageSequenceClip (e_ImageSequenceClip eng d f).
Definition subclip c s e := engine OpSubclip (e_subclip eng c s e).
Definition concatenate_videoclips cs :=
  engine OpConcatenate (e_concatenate_videoclips eng cs).
Definition resize c sz := engine OpResize (e_resize eng c sz).
Definition crop c x1 y1 x2 y2 := engine OpCrop (e_crop eng c x1 y1 x2 y2).
Definition rotate c a := engine OpRotate (e_rotate eng c a).
Definition speedx c f := engine OpSpeedx (e_speedx eng c f).
Definition set_audio c a := engine OpSetAudio (e_set_audio eng c a).
Definition fadein c d := engine OpFadein (e_fadein eng c d).
Definition fadeout c d := engine OpFadeout (e_fadeout eng c d).
Definition change_settings p :=
  engine OpChangeSettings (e_change_settings eng p).
Definition set_position c x y :=
  engine OpSetPosition (e_set_position eng c x y).
Definition set_duration c d := engine OpSetDuration (e_set_duration eng c d).
Definition set_opacity c o := engine OpSetOpacity (e_set_opacity eng c o).
Definition CompositeVideoClip cs :=
  engine OpCompositeVideoClip (e_CompositeVideoClip eng cs).
Definition blackwhite c := engine OpBlackwhite (e_blackwhite eng c).
Definition mirror_x c := engine OpMirrorX (e_mirror_x eng c).
Definition iter_frames c f := engine OpIterFrames (e_iter_frames eng c f).
Definition write_videofile c p kw :=
  engine OpWriteVideofile (e_write_videofile eng c p kw).
Definition close c := engine OpClose (e_close eng c).
Definition makedirs p := engine OpMakedirs (e_makedirs eng p).
Definition imwrite p f := engine OpImwrite (e_imwrite eng p f).
Definition getsize p := engine OpGetsize (e_getsize eng p).

(** ** The object stores *)

(** Modelled from the spec: [VideoStore] of [utils.py] is not part of the
    sources.  [store(clip)] registers the clip under a freshly generated
    reference and never fails. *)
Definition VideoStore_store (clip : Clip) : M string :=
  fun w =>
    let ref := fresh (dom (video_store w)) in
    (inr ref,
     mkWorld (<[ref := clip]> (video_store w)) (audio_store w)
             (engine_state w) (trace w ++ [EvVideoStoreStore ref])
             (errlog w)).

(** Modelled from the spec: [VideoStore.load(identifier)] returns the
    cached clip of a known reference; otherwise it asks the engine to open
    the identifier as a path (the clip is not cached), and fails with
    [NotFound] when that fails. *)
Definition VideoStore_load (identifier : string) : M Clip :=
  fun w =>
    let w0 := log_event (EvVideoStoreLoad identifier) w in
    match video_store w !! identifier with
    | Some clip => (inr clip, w0)
    | None =>
        match VideoFileClip identifier w0 with
        | (inl e, w') => (inl (mkExn "NotFound" (exn_msg e)), w')
        | (inr clip, w') => (inr clip, w')
        end
    end.

(** Modelled from the spec: [AudioStore.load] of [utils.py], the same
    resolution for audio clips. *)
Definition AudioStore_load (identifier : string) : M AudioClip :=
  fun w =>
    let w0 := log_event (EvAudioStoreLoad identifier) w in
    match audio_store w !! identifier with
    | Some clip => (inr clip, w0)
    | None =>
        match AudioFileClip identifier w0 with
        | (inl e, w') => (inl (mkExn "NotFound" (exn_msg e)), w')
        | (inr clip, w') => (inr clip, w')
        end
    end.

(** ** A tool: a [try] block and its [except Exception as e] clause *)

Record Tool := mkTool {
  tool_try : M Envelope;
  tool_except : Exn -> World -> Envelope * World }.

Definition invoke (t : Tool) : World -> Envelope * World :=
  fun w =>
    match tool_try t w with
    | (inr env, w') => (env, w')
    | (inl e, w') => tool_except t e w'
    end.

(** The [except] clause of every tool: log, then return the failure. *)
Definition log_and_fail (logmsg : string) (msg : option string)
    (e : Exn) (w : World) : Envelope * World :=
  (failed e msg, logger_error (logmsg ++ ": " ++ exn_msg e) w).

(** ** The tools *)

(** The [try] block of [get_video_info] once [video] is bound. *)
Definition get_video_info_rest (video_path : string) (video : Clip)
    : M Envelope :=
  let m := clip_meta eng video in
  let info : PyDict :=
    [("file_path", VStr video_path);
     ("filename", VStr (os_path_basename video_path));
     ("duration", VFloat (duration m));
     ("fps", VFloat (fps m));
     ("size", VPair (VInt (clip_w m)) (VInt (clip_h m)));
     ("width", VInt (clip_w m));
     ("height", VInt (clip_h m));
     ("aspect_ratio",
      if (0 <? clip_h m)%Z then
        VFloat (py_round2 (int_truediv (clip_w m) (clip_h m)))
      else VNone)] in
  let info :=
    match reader m with
    | Some r =>
        dict_update info
          (drop_none [("nframes", opt_val VInt (r_nframes r));
                      ("bitrate", opt_val VInt (r_bitrate r));
                      ("codec", opt_val VStr (r_codec r));
                      ("pix_fmt", opt_val VStr (r_pix_fmt r))])
    | None => info
    end in
  let audio_info : PyDict :=
    match audio m with
    | Some a =>
        let base :=
          [("has_audio", VBool true);
           ("audio_duration", VFloat (a_duration a));
           ("audio_fps", VInt (a_fps a));
           ("audio_channels", opt_val VInt (a_nchannels a))] in
        match a_reader a with
        | Some ar =>
            dict_update base
              (drop_none [("audio_bitrate", opt_val VInt (ar_bitrate ar));
                          ("audio_codec", opt_val VStr (ar_codec ar));
                          ("sample_rate", opt_val VInt (ar_fps ar))])
        | None => base
        end
    | None =>
        [("has_audio", VBool false);
         ("audio_duration", VNone);
         ("audio_fps", VNone);
         ("audio_channels", VNone)]
    end in
  let info := dict_update info audio_info in
  (* try: file_size = os.path.getsize(video_path) except OSError: ... *)
  file_size <- catch_OSError (getsize video_path) ;;
  let info :=
    match file_size with
    | Some n =>
        dict_set "file_size_mb"
          (VFloat (py_round2 (int_truediv n (1024 * 1024))))
          (dict_set "file_size_bytes" (VInt n) info)
    | None =>
        dict_set "file_size_mb" VNone (dict_set "file_size_bytes" VNone info)
    end in
  info <-
    (if (0 <? duration m)%float then
       total_frames <-
         (if float_truthy (fps m) then
            n <- lift (py_int (fps m * duration m)%float) ;;
            ret (VInt n)
          else ret VNone) ;;
       let info := dict_set "total_frames" total_frames info in
       ret (match dict_get "file_size_bytes" info with
            | Some (VInt n) =>
                if (n =? 0)%Z then info
                else dict_set "average_bitrate_kbps"
                       (VFloat (py_round2 (float_of_int (n * 8)
                                           / (duration m * 1000))%float))
                       info
            | _ => info
            end)
     else ret info) ;;
  _ <- close video ;;
  ret (mkEnvelope true None None None None (Some info) None None None).

(** The [try] block of [get_video_info]. *)
Definition get_video_info_try (video_path : string) : M Envelope :=
  video <- VideoFileClip video_path ;;
  get_video_info_rest video_path video.

Definition get_video_info_except (video_path : string)
    : Exn -> World -> Envelope * World :=
  log_and_fail ("Error getting video info for " ++ video_path) None.

(** The [finally] clause: [video.close()] when [video] is bound, whatever
    it raises being dropped. *)
Definition get_video_info_finally (video : option Clip) (w : World) : World :=
  match video with
  | Some v => snd (close v w)
  | None => w
  end.

Definition get_video_info (video_path : string) : World -> Envelope * World :=
  fun w =>
    match VideoFileClip video_path w with
    | (inl e, w1) =>
        let '(env, w2) := get_video_info_except video_path e w1 in
        (env, get_video_info_finally None w2)
    | (inr video, w1) =>
        let '(env, w2) :=
          invoke (mkTool (get_video_info_rest video_path video)
                         (get_video_info_except video_path)) w1 in
        (env, get_video_info_finally (Some video) w2)
    end.

Definition trim_video (video_path : string) (start_time end_time : float)
    (output_name : string) (return_path : bool) : Tool :=
  mkTool
    (if (start_time <? 0)%float || (end_time <? 0)%float then
       ret (invalid "Start and end times must be positive"
                    "Invalid time parameters")
     else if (end_time <=? start_time)%float then
       ret (invalid "Start time must be less than end time"
                    "Invalid time range")
     else
       let output_path := get_output_path output_name in
       video <- VideoStore_load video_path ;;
       trimmed_video <- subclip video start_time end_time ;;
       if return_path then
         _ <- write_videofile trimmed_video output_path [] ;;
         ret (ok_path output_path "Video trimmed successfully")
       else
         ref <- VideoStore_store trimmed_video ;;
         ret (ok_object (ORef ref) None))
    (log_and_fail ("Error trimming video " ++ video_path)
                  (Some "Error trimming video")).

Definition merge_video (video_path video_path2 output_name : string)
    (return_path : bool) : Tool :=
  mkTool
    (let output_path := get_output_path output_name in
     video1 <- VideoStore_load video_path ;;
     video2 <- VideoStore_load video_path2 ;;
     merged_video <- concatenate_videoclips [video1; video2] ;;
     if return_path then
       _ <- write_videofile merged_video output_path [] ;;
       ret (ok_path output_path "Videos merged successfully")
     else
       ref <- VideoStore_store merged_video ;;
       ret (ok_object (ORef ref) (Some "Videos merged successfully")))
    (log_and_fail
       ("Error merging videos " ++ video_path ++ " and " ++ video_path2)
       (Some "Error merging videos")).

(** [not size or len(size) != 2 or size[0] <= 0 or size[1] <= 0] *)
Definition size_invalid (size : list Z) : bool :=
  match size with
  | [] => true
  | _ =>
      negb (length size =? 2)%nat
      || (nth 0 size 0 <=? 0)%Z || (nth 1 size 0 <=? 0)%Z
  end.

Definition resize_video (video_path : string) (size : list Z)
    (output_name : string) (return_path : bool) : Tool :=
  mkTool
    (if size_invalid size then
       ret (invalid
              "Size must be a tuple of two positive integers (width, height)"
              "Invalid size parameters")
     else
       let output_path := get_output_path output_name in
       video <- VideoStore_load video_path ;;
       resized_video <- resize video size ;;
       if return_path then
         _ <- write_videofile resized_video output_path [] ;;
         ret (ok_path output_path "Video resized successfully")
       else
         ref <- VideoStore_store resized_video ;;
         ret (ok_object (ORef ref) None))
    (log_and_fail ("Error resizing video " ++ video_path)
                  (Some "Error resizing video")).

Definition crop_video (video_path : string) (x1 y1 x2 y2 : Z)
    (output_name : string) (return_path : bool) : Tool :=
  mkTool
    (if (x1 <? 0)%Z || (y1 <? 0)%Z || (x2 <=? x1)%Z || (y2 <=? y1)%Z then
       ret (invalid
              "Invalid crop coordinates. x2 > x1 and y2 > y1, all values must be non-negative"
              "Invalid crop parameters")
     else
       let output_path := get_output_path output_name in
       video <- VideoStore_load video_path ;;
       cropped_video <- crop video x1 y1 x2 y2 ;;
       if return_path then
         _ <- write_videofile cropped_video output_path [] ;;
         ret (ok_path output_path "Video cropped successfully")
       else
         ref <- VideoStore_store cropped_video ;;
         ret (ok_object (ORef ref) None))
    (log_and_fail ("Error cropping video " ++ video_path)
                  (Some "Error cropping video")).

(** [isinstance(v, (int, float))]; [bool] is a subclass of [int]. *)
Definition is_number (v : PyVal) : bool :=
  match v with
  | VInt _ | VFloat _ | VBool _ => true
  | _ => false
  end.

Definition rotate_video (video_path : string) (angle : PyVal)
    (output_name : string) (return_path : bool) : Tool :=
  mkTool
    (if negb (is_number angle) then
       ret (invalid "Angle must be a number" "Invalid angle parameter")
     else
       let output_path := get_output_path output_name in
       video <- VideoStore_load video_path ;;
       rotated_video <- rotate video angle ;;
       if return_path then
         _ <- write_videofile rotated_video output_path [] ;;
         ret (ok_path output_path "Video rotated successfully")
       else
         ref <- VideoStore_store rotated_video ;;
         ret (ok_object (ORef ref) None))
    (log_and_fail ("Error rotating video " ++ video_path)
                  (Some "Error rotating video")).

Definition speed_up_video (video_path : string) (speed : float)
    (output_name : string) (return_path : bool) : Tool :=
  mkTool
    (if (speed <=? 0)%float then
       ret (invalid "Speed must be positive (e.g., 2.0 for 2x speed)"
                    "Invalid speed parameter")
     else
       let output_path := get_output_path output_name in
       video <- VideoStore_load video_path ;;
       sped_up_video <- speedx video speed ;;
       if return_path then
         _ <- write_videofile sped_up_video output_path [] ;;
         ret (ok_path output_path "Video speed changed successfully")
       else
         ref <- VideoStore_store sped_up_video ;;
         ret (ok_object (ORef ref) None))
    (log_and_fail ("Error changing video speed " ++ video_path)
                  (Some "Error changing video speed")).

Definition add_audio (video_path audio_path output_name : string)
    (return_path : bool) : Tool :=
  mkTool
    (let output_path := get_output_path output_name in
     video <- VideoStore_load video_path ;;
     audio <- AudioStore_load audio_path ;;
     new_video <- set_audio video audio ;;
     if return_path then
       _ <- write_videofile new_video output_path [] ;;
       ret (ok_path output_path "Audio added successfully")
     else
       ref <- VideoStore_store new_video ;;
       ret (ok_object (ORef ref) None))
    (log_and_fail ("Error adding audio to video " ++ video_path)
                  (Some "Error adding audio to video")).

Definition fadein_video (video_path : string) (fade_duration : float)
    (output_name : string) (return_path : bool) : Tool :=
  mkTool
    (if (fade_duration <=? 0)%float then
       ret (invalid "Fade duration must be positive"
                    "Invalid fade duration parameter")
     else
       let output_path := get_output_path output_name in
       video <- VideoStore_load video_path ;;
       faded_video <- fadein video fade_duration ;;
       if return_path then
         _ <- write_videofile faded_video output_path [] ;;
         ret (ok_path output_path "Fade in effect added successfully")
       else
         ref <- VideoStore_store faded_video ;;
         ret (ok_object (ORef ref) None))
    (log_and_fail ("Error adding fade in effect to video " ++ video_path)
                  (Some "Error adding fade in effect")).

Definition fadeout_video (video_path : string) (fade_duration : float)
    (output_name : string) (return_path : bool) : Tool :=
  mkTool
    (if (fade_duration <=? 0)%float then
       ret (invalid "Fade duration must be positive"
                    "Invalid fade duration parameter")
     else
       let output_path := get_output_path output_name in
       video <- VideoStore_load video_path ;;
       faded_video <- fadeout video fade_duration ;;
       if return_path then
         _ <- write_videofile faded_video output_path [] ;;
         ret (ok_path output_path "Fade out effect added successfully")
       else
         ref <- VideoStore_store faded_video ;;
         ret (ok_object (ORef ref) None))
    (log_and_fail ("Error adding fade out effect to video " ++ video_path)
                  (Some "Error adding fade out effect")).

Definition add_text_overlay (video_path : string) (text : Text)
    (x y font_size : Z) (color : string) (duration : float)
    (output_name : string) (return_path : bool)
    (path_of_imagemagick : string) : Tool :=
  mkTool
    (if negb (text_truthy text) || negb (text_truthy (py_strip text)) then
       ret (invalid "Text cannot be empty" "Invalid text parameter")
     else if (font_size <=? 0)%Z then
       ret (invalid "Font size must be positive"
                    "Invalid font size parameter")
     else if (duration <=? 0)%float then
       ret (invalid "Duration must be positive" "Invalid duration parameter")
     else
       let output_path := get_output_path output_name in
       video <- VideoStore_load video_path ;;
       _ <- change_settings path_of_imagemagick ;;
       text_clip <- TextClip text font_size color ;;
       text_clip <- set_position text_clip x y ;;
       text_clip <- set_duration text_clip duration ;;
       final_video <- CompositeVideoClip [video; text_clip] ;;
       if return_path then
         _ <- write_videofile final_video output_path
                [("fps", VFloat (fps (clip_meta eng final_video)))] ;;
         ret (ok_path output_path "Text overlay added successfully")
       else
         ref <- VideoStore_store final_video ;;
         ret (ok_object (ORef ref) (Some "Text overlay added successfully")))
    (log_and_fail ("Error adding text overlay to video " ++ video_path)
       (Some "Error adding text overlay. Make sure ImageMagick is installed and path is correct.")).

Definition add_image_overlay (video_path image_path : string) (x y : Z)
    (duration : float) (output_name : string) (return_path : bool) : Tool :=
  mkTool
    (if (duration <=? 0)%float then
       ret (invalid "Duration must be positive" "Invalid duration parameter")
     else
       let output_path := get_output_path output_name in
       video <- VideoStore_load video_path ;;
       logo <- ImageClip image_path ;;
       logo <- set_duration logo duration ;;
       logo <- set_position logo x y ;;
       final_video <- CompositeVideoClip [video; logo] ;;
       if return_path then
         _ <- write_videofile final_video output_path [] ;;
         ret (ok_path output_path "Image overlay added successfully")
       else
         ref <- VideoStore_store final_video ;;
         ret (ok_object (ORef ref) None))
    (log_and_fail ("Error adding image overlay to video " ++ video_path)
                  (Some "Error adding image overlay")).

Definition grayscale_video (video_path output_name : string)
    (return_path : bool) : Tool :=
  mkTool
    (let output_path := get_output_path output_name in
     video <- VideoStore_load video_path ;;
     gray_video <- blackwhite video ;;
     if return_path then
       _ <- write_videofile gray_video output_path [] ;;
       ret (ok_path output_path "Video converted to grayscale successfully")
     else
       ref <- VideoStore_store gray_video ;;
       ret (ok_object (ORef ref) None))
    (log_and_fail ("Error converting video to grayscale " ++ video_path)
                  (Some "Error converting video to grayscale")).

Definition images_to_video (images_folder_path : string) (fps : Z)
    (output_name : string) (return_path : bool) : Tool :=
  mkTool
    (let output_path := get_output_path output_name in
     clip <- ImageSequenceClip images_folder_path fps ;;
     if return_path then
       _ <- write_videofile clip output_path [] ;;
       ret (ok_path output_path "Video created from images successfully")
     else
       ref <- VideoStore_store clip ;;
       ret (ok_object (ORef ref) None))
    (log_and_fail ("Error creating video from images " ++ images_folder_path)
                  (Some "Error creating video from images")).

(** [for i, frame in enumerate(frames): imageio.imwrite(frame_path, frame)],
    from index [i] on. *)
Fixpoint write_frames (output_folder_name : string) (i : nat)
    (frames : list Frame) : M unit :=
  match frames with
  | [] => ret tt
  | frame :: rest =>
      let frame_path :=
        os_path_join output_folder_name ("frame_" ++ pad4 i ++ ".png") in
      _ <- imwrite frame_path frame ;;
      write_frames output_folder_name (S i) rest
  end.

(** The generator [subclip.iter_frames(fps=fps)] is run to its end in one
    engine call. *)
Definition extract_frames (video_path : string) (start_time end_time : float)
    (fps : Z) (output_folder_name : string) (return_path : bool) : Tool :=
  mkTool
    (video <- VideoStore_load video_path ;;
     sub <- subclip video start_time end_time ;;
     if return_path then
       _ <- makedirs output_folder_name ;;
       frames <- iter_frames sub fps ;;
       _ <- write_frames output_folder_name 0 frames ;;
       ret (ok_path output_folder_name "Frames extracted successfully")
     else
       frames <- iter_frames sub fps ;;
       ret (ok_object (OFrames frames) (Some "Frames extracted to memory")))
    (log_and_fail ("Error extracting frames from video " ++ video_path)
                  (Some "Error extracting frames from video")).

Definition mirror_video (video_path output_name : string)
    (return_path : bool) : Tool :=
  mkTool
    (let output_path := get_output_path output_name in
     video <- VideoStore_load video_path ;;
     mirrored_video <- mirror_x video ;;
     if return_path then
       _ <- write_videofile mirrored_video output_path [] ;;
       ret (ok_path output_path "Video mirrored successfully")
     else
       ref <- VideoStore_store mirrored_video ;;
       ret (ok_object (ORef ref) None))
    (log_and_fail ("Error mirroring video " ++ video_path)
                  (Some "Error mirroring video")).

(** [for i in range(len(split_times) - 1)]: one subclip per pair of
    consecutive boundaries. *)
Fixpoint split_segments (video : Clip) (split_times : list float)
    : M (list Clip) :=
  match split_times with
  | start :: (((end_ :: _) as rest)) =>
      segment <- subclip video start end_ ;;
      segments <- split_segments video rest ;;
      ret (segment :: segments)
  | _ => ret []
  end.

(** [for i, segment in enumerate(segments)]: write each, from index [i]. *)
Fixpoint write_segments (output_path output_name : string) (i : nat)
    (segments : list Clip) : M (list string) :=
  match segments with
  | [] => ret []
  | segment :: rest =>
      let segment_path :=
        os_path_join output_path
          (output_name ++ "_part_" ++ pretty (i + 1)%nat ++ ".mp4") in
      _ <- write_videofile segment segment_path [] ;;
      output_paths <- write_segments output_path output_name (S i) rest ;;
      ret (segment_path :: output_paths)
  end.

(** [[VideoStore.store(segment) for segment in segments]] *)
Fixpoint store_segments (segments : list Clip) : M (list string) :=
  match segments with
  | [] => ret []
  | segment :: rest =>
      ref <- VideoStore_store segment ;;
      refs <- store_segments rest ;;
      ret (ref :: refs)
  end.

Definition split_video_at_times (video_path : string) (split_times : list float)
    (output_name : string) (return_path : bool) : Tool :=
  mkTool
    (let output_path := get_output_path output_name in
     video <- VideoStore_load video_path ;;
     let split_times :=
       ([0%float] ++ split_times ++ [duration (clip_meta eng video)])%list in
     segments <- split_segments video split_times ;;
     if return_path then
       output_paths <- write_segments output_path output_name 0 segments ;;
       ret (mkEnvelope true None (Some output_paths) None None None
                       (Some "Video split successfully") None None)
     else
       refs <- store_segments segments ;;
       ret (mkEnvelope true None None None (Some refs) None None None None))
    (log_and_fail ("Error splitting video at times " ++ video_path)
                  (Some "Error splitting video at times")).

Definition convert_video_format (video_path output_name codec : string)
    (fps : option Z) (bitrate : option string) (return_path : bool) : Tool :=
  mkTool
    (let output_path := get_output_path output_name in
     video <- VideoStore_load video_path ;;
     let write_kwargs : PyDict := [("codec", VStr codec)] in
     let write_kwargs :=
       match fps with
       | Some f =>
           if (f =? 0)%Z then write_kwargs
           else dict_set "fps" (VInt f) write_kwargs
       | None => write_kwargs
       end in
     let write_kwargs :=
       match bitrate with
       | Some b =>
           if str_truthy b then dict_set "bitrate" (VStr b) write_kwargs
           else write_kwargs
       | None => write_kwargs
       end in
     if return_path then
       _ <- write_videofile video output_path write_kwargs ;;
       ret (ok_path output_path "Video format converted successfully")
     else
       ref <- VideoStore_store video ;;
       ret (ok_object (ORef ref) None))
    (log_and_fail ("Error converting video format " ++ video_path)
                  (Some "Error converting video format")).

Definition add_video_overlay (base_video_path overlay_video_path : string)
    (x y : Z) (opacity : float) (output_name : string) (return_path : bool)
    (duration : float) : Tool :=
  mkTool
    (let output_path := get_output_path output_name in
     base_video <- VideoStore_load base_video_path ;;
     overlay_video <- VideoStore_load overlay_video_path ;;
     overlay_positioned <- set_position overlay_video x y ;;
     overlay_positioned <- set_opacity overlay_positioned opacity ;;
     overlay_positioned <- set_duration overlay_positioned duration ;;
     final_video <- CompositeVideoClip [base_video; overlay_positioned] ;;
     if return_path then
       _ <- write_videofile final_video output_path [] ;;
       ret (ok_path output_path "Video overlay added successfully")
     else
       ref <- VideoStore_store final_video ;;
       ret (ok_object (ORef ref) None))
    (log_and_fail ("Error adding video overlay " ++ base_video_path)
                  (Some "Error adding video overlay")).

(** ** Calls: a tool of [register_video_tools] with its arguments *)

Inductive Call :=
| GetVideoInfo (video_path : string)
| TrimVideo (video_path : string) (start_time end_time : float)
    (output_name : string) (return_path : bool)
| MergeVideo (video_path video_path2 output_name : string)
    (return_path : bool)
| ResizeVideo (video_path : string) (size : list Z) (output_name : string)
    (return_path : bool)
| CropVideo (video_path : string) (x1 y1 x2 y2 : Z) (output_name : string)
    (return_path : bool)
| RotateVideo (video_path : string) (angle : PyVal) (output_name : string)
    (return_path : bool)
| SpeedUpVideo (video_path : string) (speed : float) (output_name : string)
    (return_path : bool)
| AddAudio (video_path audio_path output_name : string) (return_path : bool)
| FadeinVideo (video_path : string) (fade_duration : float)
    (output_name : string) (return_path : bool)
| FadeoutVideo (video_path : string) (fade_duration : float)
    (output_name : string) (return_path : bool)
| AddTextOverlay (video_path : string) (text : Text) (x y font_size : Z)
    (color : string) (duration : float) (output_name : string)
    (return_path : bool) (path_of_imagemagick : string)
| AddImageOverlay (video_path image_path : string) (x y : Z) (duration : float)
    (output_name : string) (return_path : bool)
| GrayscaleVideo (video_path output_name : string) (return_path : bool)
| ImagesToVideo (images_folder_path : string) (fps : Z)
    (output_name : string) (return_path : bool)
| ExtractFrames (video_path : string) (start_time end_time : float) (fps : Z)
    (output_folder_name : string) (return_path : bool)
| MirrorVideo (video_path output_name : string) (return_path : bool)
| SplitVideoAtTimes (video_path : string) (split_times : list float)
    (output_name : string) (return_path : bool)
| ConvertVideoFormat (video_path output_name codec : string)
    (fps : option Z) (bitrate : option string) (return_path : bool)
| AddVideoOverlay (base_video_path overlay_video_path : string) (x y : Z)
    (opacity : float) (output_name : string) (return_path : bool)
    (duration : float).

(** The [try] block and the [except] clause of a call. *)
Definition tool_of (c : Call) : Tool :=
  match c with
  | GetVideoInfo p => mkTool (get_video_info_try p) (get_video_info_except p)
  | TrimVideo p s e o rp => trim_video p s e o rp
  | MergeVideo p p2 o rp => merge_video p p2 o rp
  | ResizeVideo p sz o rp => resize_video p sz o rp
  | CropVideo p x1 y1 x2 y2 o rp => crop_video p x1 y1 x2 y2 o rp
  | RotateVideo p a o rp => rotate_video p a o rp
  | SpeedUpVideo p s o rp => speed_up_video p s o rp
  | AddAudio p a o rp => add_audio p a o rp
  | FadeinVideo p d o rp => fadein_video p d o rp
  | FadeoutVideo p d o rp => fadeout_video p d o rp
  | AddTextOverlay p t x y fs col d o rp im =>
      add_text_overlay p t x y fs col d o rp im
  | AddImageOverlay p i x y d o rp => add_image_overlay p i x y d o rp
  | GrayscaleVideo p o rp => grayscale_video p o rp
  | ImagesToVideo p f o rp => images_to_video p f o rp
  | ExtractFrames p s e f o rp => extract_frames p s e f o rp
  | MirrorVideo p o rp => mirror_video p o rp
  | SplitVideoAtTimes p ts o rp => split_video_at_times p ts o rp
  | ConvertVideoFormat p o c f b rp => convert_video_format p o c f b rp
  | AddVideoOverlay p p2 x y op o rp d => add_video_overlay p p2 x y op o rp d
  end.

(** Calling a tool: what the caller gets back, and the world after. *)
Definition run (c : Call) : World -> Envelope * World :=
  match c with
  | GetVideoInfo p => get_video_info p
  | _ => invoke (tool_of c)
  end.

(** The caller's [return_path] flag; [get_video_info] has none. *)
Definition return_path_of (c : Call) : option bool :=
  match c with
  | GetVideoInfo _ => None
  | TrimVideo _ _ _ _ rp | MergeVideo _ _ _ rp | ResizeVideo _ _ _ rp
  | CropVideo _ _ _ _ _ _ rp | RotateVideo _ _ _ rp | SpeedUpVideo _ _ _ rp
  | AddAudio _ _ _ rp | FadeinVideo _ _ _ rp | FadeoutVideo _ _ _ rp
  | AddTextOverlay _ _ _ _ _ _ _ _ rp _ | AddImageOverlay _ _ _ _ _ _ rp
  | GrayscaleVideo _ _ rp | ImagesToVideo _ _ _ rp
  | ExtractFrames _ _ _ _ _ rp | MirrorVideo _ _ rp
  | SplitVideoAtTimes _ _ _ rp | ConvertVideoFormat _ _ _ _ _ rp
  | AddVideoOverlay _ _ _ _ _ _ rp _ => Some rp
  end.

(** The video input identifiers of a call. *)
Definition video_inputs (c : Call) : list string :=
  match c with
  | GetVideoInfo p | TrimVideo p _ _ _ _ | ResizeVideo p _ _ _
  | CropVideo p _ _ _ _ _ _ | RotateVideo p _ _ _ | SpeedUpVideo p _ _ _
  | AddAudio p _ _ _ | FadeinVideo p _ _ _ | FadeoutVideo p _ _ _
  | AddTextOverlay p _ _ _ _ _ _ _ _ _ | AddImageOverlay p _ _ _ _ _ _
  | GrayscaleVideo p _ _ | ExtractFrames p _ _ _ _ _ | MirrorVideo p _ _
  | SplitVideoAtTimes p _ _ _ | ConvertVideoFormat p _ _ _ _ _ => [p]
  | MergeVideo p p2 _ _ | AddVideoOverlay p p2 _ _ _ _ _ _ => [p; p2]
  | ImagesToVideo _ _ _ _ => []
  end.

(** ** Observations on envelopes *)

Definition present {A} (o : option A) : nat :=
  match o with Some _ => 1 | None => 0 end.

(** How many of the four output fields an envelope carries. *)
Definition output_fields (env : Envelope) : nat :=
  present (output_path env) + present (output_paths env)
  + present (output_object env) + present (output_objects env).

(** The envelope carries ["output_path"] or ["output_paths"]. *)
Definition has_path_field (env : Envelope) : bool :=
  match output_path env, output_paths env with
  | None, None => false
  | _, _ => true
  end.

(** The envelope carries ["output_object"] or ["output_objects"]. *)
Definition has_object_field (env : Envelope) : bool :=
  match output_object env, output_objects env with
  | None, None => false
  | _, _ => true
  end.

(** The envelopes a [try] block returns, for a given [return_path]. *)
Inductive TryShape (rp : option bool) : Envelope -> Prop :=
| shape_invalid err msg : TryShape rp (invalid err msg)
| shape_path p msg : rp = Some true -> TryShape rp (ok_path p msg)
| shape_paths ps msg :
    rp = Some true ->
    TryShape rp (mkEnvelope true None (Some ps) None None None
                            (Some msg) None None)
| shape_object o msg : rp = Some false -> TryShape rp (ok_object o msg)
| shape_objects refs :
    rp = Some false ->
    TryShape rp (mkEnvelope true None None None (Some refs) None
                            None None None)
| shape_info info :
    rp = None ->
    TryShape rp (mkEnvelope true None None None None (Some info)
                            None None None).

(** ** What a computation does to the trace and to the video store *)

(** [emits P I m]: whatever its outcome, [m] only appends events
    satisfying [P] to the trace and keeps the invariant [I] of the video
    store. *)
Definition emits {A} (P : Event -> Prop) (I : gmap string Clip -> Prop)
    (m : M A) : Prop :=
  forall w, I (video_store w) ->
    exists evs, trace (snd (m w)) = (trace w ++ evs)%list
                /\ Forall P evs /\ I (video_store (snd (m w))).

(** The caller's view of a [try] block under its [except] clause. *)
Definition finish (logmsg : string) (msg : option string)
    (r : (Exn + Envelope) * World) : Envelope * World :=
  match r with
  | (inr env, w') => (env, w')
  | (inl e, w') => log_and_fail logmsg msg e w'
  end.

(** No file is decoded: the event is not a call to [VideoFileClip]. *)
Definition no_decode (ev : Event) : Prop := ev <> EvEngine OpVideoFileClip.

(** The event is a call to the engine, not an access to a store. *)
Definition engine_event (ev : Event) : Prop := exists op, ev = EvEngine op.

(** The identifiers are known references of the store. *)
Definition cached (ids : list string) (s : gmap string Clip) : Prop :=
  Forall (fun id => is_Some (s !! id)) ids.

(** ** The specification's side *)

(** The preconditions of the spec's table (section 4.3) that constrain the
    arguments alone, in the spec's words; the rows of [get_info] (an
    openable path) and [split_at_times] (times within the clip's duration)
    constrain the file and the clip, and are not among them.  A
    comparison with NaN is false: a NaN argument violates its row. *)
Definition spec_precondition (c : Call) : bool :=
  match c with
  | TrimVideo _ start_time end_time _ _ =>
      (0 <=? start_time)%float && (start_time <? end_time)%float
  | ResizeVideo _ size _ _ =>
      match size with
      | [width; height] => (0 <? width)%Z && (0 <? height)%Z
      | _ => false
      end
  | CropVideo _ x1 y1 x2 y2 _ _ =>
      (0 <=? x1)%Z && (0 <=? y1)%Z && (x1 <? x2)%Z && (y1 <? y2)%Z
  | RotateVideo _ angle _ _ => is_number angle
  | SpeedUpVideo _ factor _ _ => (0 <? factor)%float
  | FadeinVideo _ d _ _ | FadeoutVideo _ d _ _ => (0 <? d)%float
  | AddTextOverlay _ text _ _ font_size _ d _ _ _ =>
      text_truthy text && (0 <? font_size)%Z && (0 <? d)%float
  | AddImageOverlay _ _ _ _ d _ _ => (0 <? d)%float
  | _ => true
  end.



Definition clip_duration (c : Clip) : float := duration (clip_meta eng c).

(** The resolve and operate steps of the spec's template (section 4.2)
    for the tools that produce one clip: every input is resolved through
    [load], then the engine is asked for the transformation of the table
    (section 4.3).  [convert_format] transforms nothing; [get_info],
    [extract_frames] and [split_at_times] do not produce one clip. *)
Definition resulting_clip (c : Call) : option (M Clip) :=
  match c with
  | GetVideoInfo _ | ExtractFrames _ _ _ _ _ _
  | SplitVideoAtTimes _ _ _ _ => None
  | TrimVideo p start_time end_time _ _ =>
      Some (video <- VideoStore_load p ;; subclip video start_time end_time)
  | MergeVideo p p2 _ _ =>
      Some (video1 <- VideoStore_load p ;;
            video2 <- VideoStore_load p2 ;;
            concatenate_videoclips [video1; video2])
  | ResizeVideo p size _ _ =>
      Some (video <- VideoStore_load p ;; resize video size)
  | CropVideo p x1 y1 x2 y2 _ _ =>
      Some (video <- VideoStore_load p ;; crop video x1 y1 x2 y2)
  | RotateVideo p angle _ _ =>
      Some (video <- VideoStore_load p ;; rotate video angle)
  | SpeedUpVideo p factor _ _ =>
      Some (video <- VideoStore_load p ;; speedx video factor)
  | AddAudio p a _ _ =>
      Some (video <- VideoStore_load p ;;
            audio <- AudioStore_load a ;;
            set_audio video audio)
  | FadeinVideo p d _ _ =>
      Some (video <- VideoStore_load p ;; fadein video d)
  | FadeoutVideo p d _ _ =>
      Some (video <- VideoStore_load p ;; fadeout video d)
  | AddTextOverlay p text x y font_size color d _ _ imagemagick =>
      Some (video <- VideoStore_load p ;;
            _ <- change_settings imagemagick ;;
            layer <- TextClip text font_size color ;;
            layer <- set_position layer x y ;;
            layer <- set_duration layer d ;;
            CompositeVideoClip [video; layer])
  | AddImageOverlay p image x y d _ _ =>
      Some (video <- VideoStore_load p ;;
            layer <- ImageClip image ;;
            layer <- set_duration layer d ;;
            layer <- set_position layer x y ;;
            CompositeVideoClip [video; layer])
  | GrayscaleVideo p _ _ =>
      Some (video <- VideoStore_load p ;; blackwhite video)
  | ImagesToVideo folder f _ _ => Some (ImageSequenceClip folder f)
  | MirrorVideo p _ _ =>
      Some (video <- VideoStore_load p ;; mirror_x video)
  | ConvertVideoFormat p _ _ _ _ _ => Some (VideoStore_load p)
  | AddVideoOverlay p p2 x y opacity _ _ d =>
      Some (base <- VideoStore_load p ;;
            layer <- VideoStore_load p2 ;;
            layer <- set_position layer x y ;;
            layer <- set_opacity layer opacity ;;
            layer <- set_duration layer d ;;
            CompositeVideoClip [base; layer])
  end.

(** [cuts video bounds st segs st']: from the engine state [st], the
    subclips of [video] between the consecutive boundaries of [bounds],
    asked for in order, are the segments [segs], and leave the engine in
    [st']. *)
Inductive cuts (video : Clip) : list float -> ES -> list Clip -> ES -> Prop :=
| cuts_nil st : cuts video [] st [] st
| cuts_one b st : cuts video [b] st [] st
| cuts_cons b1 b2 bounds st seg st1 segs st2 :
    e_subclip eng video b1 b2 st = (inr seg, st1) ->
    cuts video (b2 :: bounds) st1 segs st2 ->
    cuts video (b1 :: b2 :: bounds) st (seg :: segs) st2.

(** [written files st st']: from the engine state [st], each clip is
    written to its path by [write_videofile], in order, which leaves the
    engine in [st']. *)
Inductive written : list (Clip * string) -> ES -> ES -> Prop :=
| written_nil st : written [] st st
| written_cons clip path files st st1 st2 :
    e_write_videofile eng clip path [] st = (inr tt, st1) ->
    written files st1 st2 ->
    written ((clip, path) :: files) st st2.

(** The exception was raised by the engine: by the [subclip] of [video]
    between two consecutive boundaries, or by a [write_videofile]. *)
Definition raised_by_engine (video : Clip) (bounds : list float) (e : Exn)
    : Prop :=
  (exists (i : nat) b1 b2 st st',
     bounds !! i = Some b1 /\ bounds !! S i = Some b2
     /\ e_subclip eng video b1 b2 st = (inl e, st'))
  \/ (exists seg path st st',
        e_write_videofile eng seg path [] st = (inl e, st')).

(** ** Further observations on calls and worlds *)

(** The output name a call hands to [get_output_path]. *)
Definition output_name_of (c : Call) : option string :=
  match c with
  | GetVideoInfo _ | ExtractFrames _ _ _ _ _ _ => None
  | TrimVideo _ _ _ o _ | MergeVideo _ _ o _ | ResizeVideo _ _ o _
  | CropVideo _ _ _ _ _ o _ | RotateVideo _ _ o _ | SpeedUpVideo _ _ o _
  | AddAudio _ _ o _ | FadeinVideo _ _ o _ | FadeoutVideo _ _ o _
  | AddTextOverlay _ _ _ _ _ _ _ o _ _ | AddImageOverlay _ _ _ _ _ o _
  | GrayscaleVideo _ o _ | ImagesToVideo _ _ o _ | MirrorVideo _ o _
  | SplitVideoAtTimes _ _ o _ | ConvertVideoFormat _ o _ _ _ _
  | AddVideoOverlay _ _ _ _ _ o _ _ => Some o
  end.

(** A sequence of calls, each in the world the previous one left. *)
Definition run_all (cs : list Call) (w : World) : World :=
  fold_left (fun w0 c => snd (run c w0)) cs w.

(** [steps R m]: whatever its outcome, [m] takes a world to an
    [R]-related one. *)
Definition steps {A} (R : World -> World -> Prop) (m : M A) : Prop :=
  forall w, R w (snd (m w)).

(** A relation on worlds that is a preorder and does not look at the
    engine's state or at the trace. *)
Class KeptRelation (R : World -> World -> Prop) : Prop := {
  kept_refl : forall w, R w w;
  kept_trans : forall w1 w2 w3, R w1 w2 -> R w2 w3 -> R w1 w3;
  kept_ext :
    forall w s t,
      R w (mkWorld (video_store w) (audio_store w) s t (errlog w)) }.

(** [m] always returns. *)
Definition never_raises {A} (m : M A) : Prop :=
  forall w, exists a w', m w = (inr a, w').

(** When [m] raises, the video store is as it was. *)
Definition clean {A} (m : M A) : Prop :=
  forall w e w', m w = (inl e, w') -> video_store w' = video_store w.

(** The relations on worlds the tools are shown to keep. *)
Definition same_video_store (w w' : World) : Prop :=
  video_store w' = video_store w.

Definition same_audio_store (w w' : World) : Prop :=
  audio_store w' = audio_store w.

Definition same_errlog (w w' : World) : Prop := errlog w' = errlog w.

Definition keeps_entries (w w' : World) : Prop :=
  forall k clip, video_store w !! k = Some clip ->
                 video_store w' !! k = Some clip.

(** The event writes no file: it is not a call to [write_videofile],
    [imageio.imwrite] or [os.makedirs]. *)
Definition no_write (ev : Event) : Prop :=
  ev <> EvEngine OpWriteVideofile /\ ev <> EvEngine OpImwrite
  /\ ev <> EvEngine OpMakedirs.

(** The text is empty or made of whitespace only. *)
Definition blank (s : Text) : bool := forallb is_space s.

(** The text of a text overlay is blank. *)
Definition call_text_blank (c : Call) : bool :=
  match c with
  | AddTextOverlay _ text _ _ _ _ _ _ _ _ => blank text
  | _ => false
  end.

(** The path of segment [i] (from 0) of a split. *)
Definition segment_path (output_path output_name : string) (i : nat)
    : string :=
  os_path_join output_path
    (output_name ++ "_part_" ++ pretty (i + 1)%nat ++ ".mp4").

(** The keys [get_video_info] always reports. *)
Definition info_keys : list string :=
  ["file_path"; "filename"; "duration"; "fps"; "size"; "width"; "height";
   "aspect_ratio"; "has_audio"; "audio_duration"; "audio_fps";
   "audio_channels"; "file_size_bytes"; "file_size_mb"].

(** The dictionary of [get_video_info], stage by stage: the basic
    attributes, the reader's fields, the audio fields, the file size and
    the derived metrics. *)
Definition basic_info (video_path : string) (m : ClipMeta) : PyDict :=
  [("file_path", VStr video_path);
   ("filename", VStr (os_path_basename video_path));
   ("duration", VFloat (duration m));
   ("fps", VFloat (fps m));
   ("size", VPair (VInt (clip_w m)) (VInt (clip_h m)));
   ("width", VInt (clip_w m));
   ("height", VInt (clip_h m));
   ("aspect_ratio",
    if (0 <? clip_h m)%Z then
      VFloat (py_round2 (int_truediv (clip_w m) (clip_h m)))
    else VNone)].

Definition with_reader_info (m : ClipMeta) (info : PyDict) : PyDict :=
  match reader m with
  | Some r =>
      dict_update info
        (drop_none [("nframes", opt_val VInt (r_nframes r));
                    ("bitrate", opt_val VInt (r_bitrate r));
                    ("codec", opt_val VStr (r_codec r));
                    ("pix_fmt", opt_val VStr (r_pix_fmt r))])
  | None => info
  end.

Definition audio_info_of (m : ClipMeta) : PyDict :=
  match audio m with
  | Some a =>
      let base :=
        [("has_audio", VBool true);
         ("audio_duration", VFloat (a_duration a));
         ("audio_fps", VInt (a_fps a));
         ("audio_channels", opt_val VInt (a_nchannels a))] in
      match a_reader a with
      | Some ar =>
          dict_update base
            (drop_none [("audio_bitrate", opt_val VInt (ar_bitrate ar));
                        ("audio_codec", opt_val VStr (ar_codec ar));
                        ("sample_rate", opt_val VInt (ar_fps ar))])
      | None => base
      end
  | None =>
      [("has_audio", VBool false);
       ("audio_duration", VNone);
       ("audio_fps", VNone);
       ("audio_channels", VNone)]
  end.

Definition with_file_size (file_size : option Z) (info : PyDict) : PyDict :=
  match file_size with
  | Some n =>
      dict_set "file_size_mb"
        (VFloat (py_round2 (int_truediv n (1024 * 1024))))
        (dict_set "file_size_bytes" (VInt n) info)
  | None =>
      dict_set "file_size_mb" VNone (dict_set "file_size_bytes" VNone info)
  end.

(** [total_frames], when the duration is positive: [None] at frame rate
    0, and otherwise [int(fps * duration)], which raises on a product
    that is NaN or infinite. *)
Definition total_frames_of (m : ClipMeta) : Exn + PyVal :=
  if float_truthy (fps m) then
    match py_int (fps m * duration m)%float with
    | inl e => inl e
    | inr n => inr (VInt n)
    end
  else inr VNone.

(** The derived metrics, given the value of [total_frames]. *)
Definition with_metrics (m : ClipMeta) (total_frames : PyVal)
    (info : PyDict) : PyDict :=
  let info := dict_set "total_frames" total_frames info in
  match dict_get "file_size_bytes" info with
  | Some (VInt n) =>
      if (n =? 0)%Z then info
      else dict_set "average_bitrate_kbps"
             (VFloat (py_round2 (float_of_int (n * 8)
                                 / (duration m * 1000))%float))
             info
  | _ => info
  end.

(** The dictionary before the metrics, and with them. *)
Definition sized_info (video_path : string) (m : ClipMeta)
    (file_size : option Z) : PyDict :=
  with_file_size file_size
    (dict_update (with_reader_info m (basic_info video_path m))
                 (audio_info_of m)).

Definition video_info_dict (video_path : string) (m : ClipMeta)
    (file_size : option Z) : Exn + PyDict :=
  let info := sized_info video_path m file_size in
  if (0 <? duration m)%float then
    match total_frames_of m with
    | inl e => inl e
    | inr total_frames => inr (with_metrics m total_frames info)
    end
  else inr info.

(** ** Reasoning about the monad *)

Lemma bind_inr {A B} (m : M A) (k : A -> M B) w b w' :
  bind m k w = (inr b, w') ->
  exists a w1, m w = (inr a, w1) /\ k a w1 = (inr b, w').
Proof.
  unfold bind. destruct (m w) as [[e|a] w1]; intros H; [discriminate|].
  eauto.
Qed.

Lemma bind_run {A B} (m : M A) (k : A -> M B) w r w1 :
  m w = (r, w1) ->
  bind m k w = match r with inl e => (inl e, w1) | inr a => k a w1 end.
Proof. intros H. unfold bind. rewrite H. by destruct r. Qed.

Lemma ret_inr {A} (a b : A) w w' : ret a w = (inr b, w') -> a = b /\ w = w'.
Proof. unfold ret. intros H. by simplify_eq. Qed.

(** Take a returning [try] block apart, one statement at a time. *)
Ltac inv_try H :=
  cbv zeta in H;
  repeat match type of H with
    | bind _ _ _ = (inr _, _) =>
        let a := fresh "a" in let w := fresh "w" in let Hm := fresh "Hm" in
        apply bind_inr in H as (a & w & Hm & H); cbv zeta in H
    | (if ?b then _ else _) _ = _ =>
        let Hb := fresh "Hb" in destruct b eqn:Hb
    | ret _ _ = (inr _, _) => apply ret_inr in H as [<- <-]
    end.

Ltac unfold_tools :=
  unfold trim_video, merge_video, resize_video, crop_video, rotate_video,
    speed_up_video, add_audio, fadein_video, fadeout_video,
    add_text_overlay, add_image_overlay, grayscale_video, images_to_video,
    extract_frames, mirror_video, split_video_at_times,
    convert_video_format, add_video_overlay.

Lemma try_shape (c : Call) w env w' :
  tool_try (tool_of c) w = (inr env, w') -> TryShape (return_path_of c) env.
Proof.
  destruct c; simpl; intros H;
    try (unfold get_video_info_try, get_video_info_rest in H);
    inv_try H; try (by constructor).
Qed.

(** Every [except] clause logs the error and returns the failure shape. *)
Lemma tool_except_fails (c : Call) :
  exists logmsg msg, tool_except (tool_of c) = log_and_fail logmsg msg.
Proof. destruct c; simpl; eauto. Qed.

(** The [finally] clause of [get_video_info] does not change the envelope:
    the caller gets what the [try] block and the [except] clause produce. *)
Lemma run_fst (c : Call) w : fst (run c w) = fst (invoke (tool_of c) w).
Proof.
  destruct c; try reflexivity.
  simpl. unfold get_video_info, invoke, get_video_info_try. simpl.
  unfold bind at 1.
  destruct (VideoFileClip video_path w) as [[e|video] w1]; simpl.
  - reflexivity.
  - destruct (get_video_info_rest video_path video w1) as [[e|env] w2];
      reflexivity.
Qed.

(** What the caller gets, by the outcome of the [try] block. *)
Lemma run_outcome (c : Call) w :
  match tool_try (tool_of c) w with
  | (inl e, _) => exists msg, fst (run c w) = failed e msg
  | (inr env, _) => fst (run c w) = env
  end.
Proof.
  rewrite run_fst. unfold invoke.
  destruct (tool_try (tool_of c) w) as [[e|env] w1]; [|reflexivity].
  destruct (tool_except_fails c) as (logmsg & msg & ->). by exists msg.
Qed.

(** A successful call comes from a returning [try] block. *)
Lemma run_success (c : Call) w :
  success (fst (run c w)) = true ->
  is_Some (return_path_of c) ->
  exists w', tool_try (tool_of c) w = (inr (fst (run c w)), w')
             /\ snd (run c w) = w'.
Proof.
  intros Hs Hrp. destruct (tool_except_fails c) as (logmsg & msg & Hex).
  assert (Hrun : run c w = invoke (tool_of c) w).
  { destruct c; try reflexivity. by destruct Hrp as [? [=]]. }
  rewrite Hrun in *. unfold invoke in *. rewrite Hex in *.
  destruct (tool_try (tool_of c) w) as [[e|env] w1]; [discriminate|].
  eauto.
Qed.

Lemma invoke_finish body logmsg msg w :
  invoke (mkTool body (log_and_fail logmsg msg)) w
  = finish logmsg msg (body w).
Proof. unfold invoke, finish. simpl. by destruct (body w) as [[?|?] ?]. Qed.

(** ** The primitive steps *)

Lemma engine_inr {A} op (f : Eff ES A) w a w' :
  engine op f w = (inr a, w') ->
  f (engine_state w) = (inr a, engine_state w')
  /\ video_store w' = video_store w
  /\ trace w' = (trace w ++ [EvEngine op])%list.
Proof.
  unfold engine. destruct (f (engine_state w)) as [r s]. intros [= -> <-].
  done.
Qed.

Lemma store_inr clip w ref w' :
  VideoStore_store clip w = (inr ref, w') ->
  video_store w !! ref = None
  /\ video_store w' = <[ref := clip]> (video_store w)
  /\ engine_state w' = engine_state w
  /\ trace w' = (trace w ++ [EvVideoStoreStore ref])%list.
Proof.
  unfold VideoStore_store. intros [= <- <-]. simpl.
  split; [|done]. apply not_elem_of_dom. apply is_fresh.
Qed.

(** A known reference resolves to the cached clip, with no engine call. *)
Lemma load_hit identifier clip w :
  video_store w !! identifier = Some clip ->
  VideoStore_load identifier w
  = (inr clip, log_event (EvVideoStoreLoad identifier) w).
Proof. intros H. unfold VideoStore_load. by rewrite H. Qed.

Lemma load_store identifier w r w' :
  VideoStore_load identifier w = (r, w') -> video_store w' = video_store w.
Proof.
  unfold VideoStore_load, VideoFileClip, engine.
  destruct (video_store w !! identifier); [by intros [= <- <-]|]. simpl.
  destruct (e_VideoFileClip eng identifier (engine_state w)) as [[e|c] s];
    by intros [= <- <-].
Qed.

Lemma audio_load_store identifier w r w' :
  AudioStore_load identifier w = (r, w') -> video_store w' = video_store w.
Proof.
  unfold AudioStore_load, AudioFileClip, engine.
  destruct (audio_store w !! identifier); [by intros [= <- <-]|]. simpl.
  destruct (e_AudioFileClip eng identifier (engine_state w)) as [[e|c] s];
    by intros [= <- <-].
Qed.

Lemma bind_load_hit {B} identifier (k : Clip -> M B) clip w :
  video_store w !! identifier = Some clip ->
  bind (VideoStore_load identifier) k w
  = k clip (log_event (EvVideoStoreLoad identifier) w).
Proof. intros H. unfold bind. by rewrite (load_hit _ _ _ H). Qed.

Lemma cached_insert ids (s : gmap string Clip) k c :
  cached ids s -> cached ids (<[k := c]> s).
Proof.
  unfold cached. intros H. eapply Forall_impl; [exact H|]. intros id [x Hx].
  destruct (decide (k = id)) as [->|Hne].
  - rewrite lookup_insert_eq. eauto.
  - rewrite lookup_insert_ne by done. eauto.
Qed.

(** ** Rules for [emits] *)

Section Emits.

Variable P : Event -> Prop.
Variable I : gmap string Clip -> Prop.

Lemma emits_ret {A} (a : A) : emits P I (ret a).
Proof. intros w HI. exists []. simpl. by rewrite app_nil_r. Qed.

Lemma emits_lift {A} (r : Exn + A) : emits P I (lift r).
Proof. intros w HI. exists []. simpl. by rewrite app_nil_r. Qed.

Lemma emits_bind {A B} (m : M A) (k : A -> M B) :
  emits P I m -> (forall a, emits P I (k a)) -> emits P I (bind m k).
Proof.
  intros Hm Hk w HI. destruct (Hm w HI) as (evs & Ht & HP & HI1).
  unfold bind. destruct (m w) as [[e|a] w1]; simpl in *.
  - eauto.
  - destruct (Hk a w1 HI1) as (evs2 & Ht2 & HP2 & HI2).
    exists (evs ++ evs2)%list. rewrite Ht2, Ht, app_assoc.
    split; [done|]. split; [by apply Forall_app|done].
Qed.

Lemma emits_engine {A} op (f : Eff ES A) :
  P (EvEngine op) -> emits P I (engine op f).
Proof.
  intros HP w HI. exists [EvEngine op]. unfold engine.
  destruct (f (engine_state w)) as [r s]. simpl. auto.
Qed.

Lemma emits_catch_OSError {A} (m : M A) :
  emits P I m -> emits P I (catch_OSError m).
Proof.
  intros Hm w HI. destruct (Hm w HI) as (evs & Ht & HP & HI1).
  exists evs. unfold catch_OSError.
  destruct (m w) as [[e|a] w1]; [destruct (is_OSError e)|]; done.
Qed.

Lemma emits_store clip :
  (forall r, P (EvVideoStoreStore r)) ->
  (forall s k c, I s -> I (<[k := c]> s)) ->
  emits P I (VideoStore_store clip).
Proof.
  intros HP Hins w HI. eexists [_]. unfold VideoStore_store. simpl. auto.
Qed.

Lemma emits_load identifier :
  P (EvVideoStoreLoad identifier) ->
  P (EvEngine OpVideoFileClip)
  \/ (forall s, I s -> is_Some (s !! identifier)) ->
  emits P I (VideoStore_load identifier).
Proof.
  intros HP Hor w HI. unfold VideoStore_load.
  destruct (video_store w !! identifier) as [clip|] eqn:Hl; simpl.
  - exists [EvVideoStoreLoad identifier]. auto.
  - destruct Hor as [HP'|Hhit].
    + exists [EvVideoStoreLoad identifier; EvEngine OpVideoFileClip].
      unfold VideoFileClip, engine, log_event. simpl.
      destruct (e_VideoFileClip eng identifier (engine_state w))
        as [[e|c] s]; simpl; rewrite <- app_assoc; auto.
    + destruct (Hhit _ HI) as [c Hc]. congruence.
Qed.

Lemma emits_audio_load identifier :
  P (EvAudioStoreLoad identifier) ->
  P (EvEngine OpAudioFileClip) ->
  emits P I (AudioStore_load identifier).
Proof.
  intros HP HP' w HI. unfold AudioStore_load.
  destruct (audio_store w !! identifier) as [clip|]; simpl.
  - exists [EvAudioStoreLoad identifier]. auto.
  - exists [EvAudioStoreLoad identifier; EvEngine OpAudioFileClip].
    unfold AudioFileClip, engine, log_event. simpl.
    destruct (e_AudioFileClip eng identifier (engine_state w))
      as [[e|c] s]; simpl; rewrite <- app_assoc; auto.
Qed.

Lemma emits_write_frames folder frames :
  P (EvEngine OpImwrite) -> forall i, emits P I (write_frames folder i frames).
Proof.
  intros HP. induction frames as [|f frames IH]; intros i; simpl.
  - apply emits_ret.
  - apply emits_bind; [by apply emits_engine|]. intros _. apply IH.
Qed.

Lemma emits_split_segments video bounds :
  P (EvEngine OpSubclip) -> emits P I (split_segments video bounds).
Proof.
  intros HP. induction bounds as [|b1 [|b2 bounds] IH]; simpl;
    try apply emits_ret.
  apply emits_bind; [by apply emits_engine|]. intros seg.
  apply emits_bind; [apply IH|]. intros segs. apply emits_ret.
Qed.

Lemma emits_write_segments output_path output_name segments :
  P (EvEngine OpWriteVideofile) ->
  forall i, emits P I (write_segments output_path output_name i segments).
Proof.
  intros HP. induction segments as [|s segments IH]; intros i; simpl.
  - apply emits_ret.
  - apply emits_bind; [by apply emits_engine|]. intros _.
    apply emits_bind; [apply IH|]. intros ps. apply emits_ret.
Qed.

Lemma emits_store_segments segments :
  (forall r, P (EvVideoStoreStore r)) ->
  (forall s k c, I s -> I (<[k := c]> s)) ->
  emits P I (store_segments segments).
Proof.
  intros HP Hins. induction segments as [|s segments IH]; simpl.
  - apply emits_ret.
  - apply emits_bind; [by apply emits_store|]. intros r.
    apply emits_bind; [apply IH|]. intros rs. apply emits_ret.
Qed.

Lemma finish_emits (m : M Envelope) logmsg msg w :
  emits P I m -> I (video_store w) ->
  exists evs, trace (snd (finish logmsg msg (m w))) = (trace w ++ evs)%list
              /\ Forall P evs
              /\ I (video_store (snd (finish logmsg msg (m w)))).
Proof.
  intros Hm HI. destruct (Hm w HI) as (evs & Ht & HP & HI').
  exists evs. unfold finish. by destruct (m w) as [[e|env] w1].
Qed.

End Emits.

(** One rule of [emits] at the head of the computation. *)
Ltac emits_step :=
  lazymatch goal with
  | |- emits _ _ (ret _) => apply emits_ret
  | |- emits _ _ (lift _) => apply emits_lift
  | |- emits _ _ (bind _ _) => apply emits_bind; [|intros ?]
  | |- emits _ _ (if ?b then _ else _) => destruct b
  | |- emits _ _ (catch_OSError _) => apply emits_catch_OSError
  | |- emits _ _ (VideoStore_load _) => apply emits_load
  | |- emits _ _ (VideoStore_store _) => apply emits_store
  | |- emits _ _ (AudioStore_load _) => apply emits_audio_load
  | |- emits _ _ (split_segments _ _) => apply emits_split_segments
  | |- emits _ _ (store_segments _) => apply emits_store_segments
  | |- emits _ _ (write_segments _ _ _ _) => apply emits_write_segments
  | |- emits _ _ (write_frames _ _ _) => apply emits_write_frames
  | |- emits _ _ _ => apply emits_engine
  end.

Ltac solve_emits := cbv zeta; repeat emits_step.

(** ** The loops of [split_video_at_times] *)

Lemma split_segments_spec (video : Clip) (bounds : list float) :
  forall w segs w',
    split_segments video bounds w = (inr segs, w') ->
    length segs = pred (length bounds)
    /\ (forall (i : nat) seg, segs !! i = Some seg ->
          exists b1 b2 st st',
            bounds !! i = Some b1 /\ bounds !! S i = Some b2
            /\ e_subclip eng video b1 b2 st = (inr seg, st'))
    /\ video_store w' = video_store w.
Proof.
  induction bounds as [|b1 [|b2 bounds] IH]; intros w segs w' H.
  - apply ret_inr in H as [<- <-]. done.
  - apply ret_inr in H as [<- <-]. done.
  - simpl in H. inv_try H. apply engine_inr in Hm as (He & Hs & _).
    apply IH in Hm0 as (Hlen & Hseg & Hs0). split; [|split].
    + simpl in *. by rewrite Hlen.
    + intros [|i] seg Hi; simpl in Hi.
      * simplify_eq. simpl. eauto 10.
      * apply Hseg in Hi. simpl. exact Hi.
    + congruence.
Qed.

Lemma split_segments_cuts (video : Clip) (bounds : list float) :
  forall w segs w',
    split_segments video bounds w = (inr segs, w') ->
    cuts video bounds (engine_state w) segs (engine_state w').
Proof.
  induction bounds as [|b1 [|b2 bounds] IH]; intros w segs w' H.
  - apply ret_inr in H as [<- <-]. constructor.
  - apply ret_inr in H as [<- <-]. constructor.
  - simpl in H. inv_try H. apply engine_inr in Hm as (He & _).
    apply IH in Hm0. econstructor; eassumption.
Qed.

Lemma cuts_lookup video bounds st segs st' :
  cuts video bounds st segs st' ->
  forall (i : nat) seg, segs !! i = Some seg ->
    exists b1 b2 st0 st1,
      bounds !! i = Some b1 /\ bounds !! S i = Some b2
      /\ e_subclip eng video b1 b2 st0 = (inr seg, st1).
Proof.
  induction 1 as [| |b1 b2 bounds st seg st1 segs st2 He _ IH];
    intros i s Hi; try done.
  destruct i as [|i]; simpl in Hi.
  - simplify_eq. simpl. eauto 10.
  - apply IH in Hi. exact Hi.
Qed.

Lemma write_segments_written output_path output_name (segs : list Clip) :
  forall i w paths w',
    write_segments output_path output_name i segs w = (inr paths, w') ->
    written (zip segs paths) (engine_state w) (engine_state w')
    /\ video_store w' = video_store w.
Proof.
  induction segs as [|s segs IH]; intros i w paths w' H; simpl in H.
  - apply ret_inr in H as [<- <-]. split; [constructor|done].
  - inv_try H. apply engine_inr in Hm as (He & Hs & _).
    apply IH in Hm0 as (Hw & Hs0). destruct a.
    split; [econstructor; eassumption|congruence].
Qed.

Lemma engine_run {A} op (f : Eff ES A) w :
  exists r s,
    engine op f w
    = (r, mkWorld (video_store w) (audio_store w) s
                  (trace w ++ [EvEngine op]) (errlog w)).
Proof. unfold engine. destruct (f (engine_state w)) as [r s]. eauto. Qed.

Lemma never_raises_ret {A} (a : A) : never_raises (ret a).
Proof. intros w. by eexists _, _. Qed.

Lemma never_raises_bind {A B} (m : M A) (k : A -> M B) :
  never_raises m -> (forall a, never_raises (k a)) -> never_raises (bind m k).
Proof.
  intros Hm Hk w. destruct (Hm w) as (a & w1 & Ha). unfold bind. rewrite Ha.
  apply Hk.
Qed.

Lemma never_raises_store clip : never_raises (VideoStore_store clip).
Proof. intros w. by eexists _, _. Qed.

Lemma never_raises_store_segments segments :
  never_raises (store_segments segments).
Proof.
  induction segments as [|s segments IH]; simpl.
  - apply never_raises_ret.
  - apply never_raises_bind; [apply never_raises_store|]. intros r.
    apply never_raises_bind; [apply IH|]. intros rs. apply never_raises_ret.
Qed.

Lemma engine_inl {A} op (f : Eff ES A) w e w' :
  engine op f w = (inl e, w') ->
  f (engine_state w) = (inl e, engine_state w').
Proof.
  unfold engine. destruct (f (engine_state w)) as [r s]. by intros [= -> <-].
Qed.

Lemma bind_inl {A B} (m : M A) (k : A -> M B) w e w' :
  bind m k w = (inl e, w') ->
  m w = (inl e, w') \/ exists a w1, m w = (inr a, w1) /\ k a w1 = (inl e, w').
Proof.
  unfold bind. destruct (m w) as [[e0|a] w1]; intros H.
  - left. by simplify_eq.
  - right. eauto.
Qed.

(** The cutting loop starts with a call to [subclip]. *)
Lemma split_segments_starts (video : Clip) b1 b2 bounds w :
  exists rest,
    trace (snd (split_segments video (b1 :: b2 :: bounds) w))
    = (trace w ++ EvEngine OpSubclip :: rest)%list.
Proof.
  change (split_segments video (b1 :: b2 :: bounds))
    with (segment <- subclip video b1 b2 ;;
          segments <- split_segments video (b2 :: bounds) ;;
          ret (segment :: segments)).
  destruct (engine_run OpSubclip (e_subclip eng video b1 b2) w)
    as (res & st & Hsub).
  fold (subclip video b1 b2) in Hsub. rewrite (bind_run _ _ _ _ _ Hsub).
  destruct res as [e|seg]; [by exists []|].
  match goal with
  | |- context [trace (snd (?k ?w0))] =>
      destruct (fun H => emits_bind (fun _ => True) (fun _ => True)
                  (split_segments video (b2 :: bounds))
                  (fun segments => ret (seg :: segments)) H
                  (fun a => emits_ret _ _ _) w0 I)
        as (evs & Ht & _); [by apply emits_split_segments|]
  end.
  rewrite Ht. simpl. rewrite <- app_assoc. eauto.
Qed.

(** When the cutting loop raises, the exception is the engine's. *)
Lemma split_segments_raises (video : Clip) (bounds : list float) :
  forall w e w',
    split_segments video bounds w = (inl e, w') ->
    exists (i : nat) b1 b2 st st',
      bounds !! i = Some b1 /\ bounds !! S i = Some b2
      /\ e_subclip eng video b1 b2 st = (inl e, st').
Proof.
  induction bounds as [|b1 [|b2 bounds] IH]; intros w e w' H; try done.
  change (split_segments video (b1 :: b2 :: bounds))
    with (segment <- subclip video b1 b2 ;;
          segments <- split_segments video (b2 :: bounds) ;;
          ret (segment :: segments)) in H.
  apply bind_inl in H as [H|(seg & w1 & _ & H)].
  - apply engine_inl in H. exists 0%nat. simpl. eauto 10.
  - apply bind_inl in H as [H|(segs & w2 & _ & H)]; [|done].
    apply IH in H as (i & c1 & c2 & st & st' & H1 & H2 & H).
    exists (S i). simpl. eauto 10.
Qed.

(** When the writing loop raises, the exception is the engine's. *)
Lemma write_segments_raises output_path output_name (segs : list Clip) :
  forall i w e w',
    write_segments output_path output_name i segs w = (inl e, w') ->
    exists seg path st st',
      e_write_videofile eng seg path [] st = (inl e, st').
Proof.
  induction segs as [|s segs IH]; intros i w e w' H; simpl in H; [done|].
  apply bind_inl in H as [H|(u & w1 & _ & H)].
  - apply engine_inl in H. eauto.
  - apply bind_inl in H as [H|(ps & w2 & _ & H)]; [|done]. eauto.
Qed.

Lemma store_segments_engine (segs : list Clip) :
  forall w refs w',
    store_segments segs w = (inr refs, w') ->
    engine_state w' = engine_state w.
Proof.
  induction segs as [|s segs IH]; intros w refs w' H; simpl in H.
  - by apply ret_inr in H as [<- <-].
  - inv_try H. apply store_inr in Hm as (_ & _ & He & _).
    apply IH in Hm0. congruence.
Qed.

Lemma store_segments_spec (segs : list Clip) :
  forall w refs w',
    store_segments segs w = (inr refs, w') ->
    Forall2 (fun r s => video_store w' !! r = Some s) refs segs
    /\ Forall (fun r => video_store w !! r = None) refs
    /\ (forall k c, video_store w !! k = Some c ->
                    video_store w' !! k = Some c).
Proof.
  induction segs as [|s segs IH]; intros w refs w' H; simpl in H.
  - apply ret_inr in H as [<- <-]. done.
  - inv_try H. apply store_inr in Hm as (Hfresh & Hs & _).
    apply IH in Hm0 as (Hall & Hnew & Hkeep).
    assert (Hk : forall k c, video_store w !! k = Some c ->
                             video_store w0 !! k = Some c).
    { intros k c Hk. rewrite Hs. rewrite lookup_insert_ne; [done|].
      intros ->. congruence. }
    split; [|split].
    + constructor; [|done]. apply Hkeep. rewrite Hs.
      apply lookup_insert_eq.
    + constructor; [done|]. eapply Forall_impl; [exact Hnew|].
      intros r Hr. simpl in Hr. destruct (video_store w !! r) eqn:E; [|done].
      apply Hk in E. congruence.
    + eauto.
Qed.

Lemma write_segments_length output_path output_name (segs : list Clip) :
  forall i w paths w',
    write_segments output_path output_name i segs w = (inr paths, w') ->
    length paths = length segs.
Proof.
  induction segs as [|s segs IH]; intros i w paths w' H; simpl in H.
  - apply ret_inr in H as [<- <-]. done.
  - inv_try H. apply IH in Hm0. simpl. by rewrite Hm0.
Qed.

(** ** The order of floats *)

Lemma SFcompare_antisym x y :
  SFcompare y x = option_map CompOpp (SFcompare x y).
Proof.
  destruct x as [[]|[]| |[] mx ex], y as [[]|[]| |[] my ey]; try reflexivity;
    simpl; rewrite (Z.compare_antisym ex ey);
    destruct (ex ?= ey)%Z; simpl; try reflexivity;
    change (Pos.compare_cont Eq my mx)
      with (Pos.compare_cont (CompOpp Eq) my mx);
    rewrite <- (Pos.compare_cont_antisym mx my Eq); simpl;
    by destruct (Pos.compare_cont Eq mx my).
Qed.

Lemma is_nan_false x : PrimFloat.is_nan x = false -> Prim2SF x <> S754_nan.
Proof.
  unfold PrimFloat.is_nan. rewrite FloatAxioms.eqb_spec. intros H E. rewrite E in H.
  discriminate.
Qed.

Lemma SFcompare_total x y :
  x <> S754_nan -> y <> S754_nan -> is_Some (SFcompare x y).
Proof. destruct x as [| | |], y as [| | |]; simpl; try done; eauto. Qed.

Lemma float_ltb_leb x y : (x <? y)%float = true -> (y <=? x)%float = false.
Proof.
  rewrite FloatAxioms.ltb_spec, FloatAxioms.leb_spec. unfold SFltb, SFleb.
  rewrite (SFcompare_antisym (Prim2SF x)).
  by destruct (SFcompare _ _) as [[]|].
Qed.

Lemma float_leb_ltb x y : (x <=? y)%float = true -> (y <? x)%float = false.
Proof.
  rewrite FloatAxioms.ltb_spec, FloatAxioms.leb_spec. unfold SFltb, SFleb.
  rewrite (SFcompare_antisym (Prim2SF x)).
  by destruct (SFcompare _ _) as [[]|].
Qed.


Lemma float_not_leb x y :
  PrimFloat.is_nan x = false -> PrimFloat.is_nan y = false ->
  (x <=? y)%float = false -> (y <? x)%float = true.
Proof.
  intros Hx%is_nan_false Hy%is_nan_false.
  rewrite FloatAxioms.ltb_spec, FloatAxioms.leb_spec. unfold SFltb, SFleb.
  rewrite (SFcompare_antisym (Prim2SF x)).
  destruct (SFcompare_total _ _ Hx Hy) as [c ->]. by destruct c.
Qed.

(** ** Properties of the specification *)

(** C1 (as amended).  Every tool that takes [return_path] returns, on
    success, exactly one of the four output fields: a path field
    ([output_path] or [output_paths]) when [return_path] is true, an
    object field ([output_object] or [output_objects]) when it is false;
    on failure it returns none of them.  [get_video_info], which has no
    [return_path], never returns an output field: its successful envelope
    carries [video_info]. *)
Theorem C1_output_fields (c : Call) w :
  let env := fst (run c w) in
  match return_path_of c with
  | Some rp =>
      if success env
      then output_fields env = 1
           /\ has_path_field env = rp /\ has_object_field env = negb rp
      else output_fields env = 0
  | None =>
      output_fields env = 0
      /\ present (video_info env) = (if success env then 1 else 0)
  end.
Proof.
  intros env. subst env. pose proof (run_outcome c w) as Ho.
  destruct (tool_try (tool_of c) w) as [[e|env] w1] eqn:Htry.
  - destruct Ho as [msg ->]. by destruct (return_path_of c).
  - rewrite Ho. apply try_shape in Htry.
    destruct Htry as [| ? ? -> | ? ? -> | ? ? -> | ? -> | ? ->]; try done.
    by destruct (return_path_of c).
Qed.


(** C3.  Whatever the tool and its input, the caller gets an envelope: an
    exception raised in the [try] block (by the resolution of an
    identifier, by an engine call or while the result is written or
    stored) comes back as a failure envelope whose [error] is the
    exception's text and whose [error_type] is its class name; a [try]
    block that returns gives its envelope to the caller. *)
Theorem C3_exceptions_caught (c : Call) w :
  match tool_try (tool_of c) w with
  | (inl e, _) =>
      success (fst (run c w)) = false
      /\ error (fst (run c w)) = Some (exn_msg e)
      /\ error_type (fst (run c w)) = Some (exn_type e)
  | (inr env, _) => fst (run c w) = env
  end.
Proof.
  pose proof (run_outcome c w) as Ho.
  destruct (tool_try (tool_of c) w) as [[e|env] w1]; [|done].
  by destruct Ho as [msg ->].
Qed.

(** C4 (as amended).  A successful [split_video_at_times] on [n] split
    times makes [n + 1] segments: the engine is asked, in order, for the
    subclip of the resolved video between the boundaries [i] and [i + 1]
    of [[0] + times + [duration]], whatever the times are.  With
    [return_path] true the envelope lists [n + 1] paths and segment [i]
    has been written by the engine to path [i], in order, the store being
    left as it was; with [return_path] false it lists [n + 1] references,
    reference [i] resolving in the store to segment [i], and the engine
    is not called again.  The durations of the segments are the
    engine's. *)
Theorem C4_split_segments video_path (split_times : list float) output_name
    return_path w :
  let r := run (SplitVideoAtTimes video_path split_times output_name
                                  return_path) w in
  success (fst r) = true ->
  exists video w1 segs st,
    VideoStore_load video_path w = (inr video, w1)
    /\ cuts video (0%float :: split_times ++ [clip_duration video])
             (engine_state w1) segs st
    /\ length segs = S (length split_times)
    /\ (forall (i : nat) seg, segs !! i = Some seg ->
          exists b1 b2 st0 st1,
            (0%float :: split_times ++ [clip_duration video]) !! i = Some b1
            /\ (0%float :: split_times ++ [clip_duration video]) !! S i
               = Some b2
            /\ e_subclip eng video b1 b2 st0 = (inr seg, st1))
    /\ if return_path
       then exists paths,
              output_paths (fst r) = Some paths
              /\ length paths = S (length split_times)
              /\ written (zip segs paths) st (engine_state (snd r))
              /\ video_store (snd r) = video_store w
       else exists refs,
              output_objects (fst r) = Some refs
              /\ length refs = S (length split_times)
              /\ Forall2 (fun ref seg => video_store (snd r) !! ref = Some seg)
                         refs segs
              /\ engine_state (snd r) = st.
Proof.
  intros r Hs. subst r.
  destruct (run_success _ w Hs) as (w' & Htry & Hw'); [by eexists|].
  rewrite Hw'. clear Hw' Hs. remember (fst (run _ w)) as env eqn:E. clear E.
  unfold tool_of, split_video_at_times, tool_try in Htry.
  cbv zeta in Htry. apply bind_inr in Htry as (video & w1 & Hload & Htry).
  apply bind_inr in Htry as (segs & w2 & Hsplit & Htry).
  exists video, w1, segs, (engine_state w2).
  pose proof (split_segments_cuts _ _ _ _ _ Hsplit) as Hcuts.
  apply split_segments_spec in Hsplit as (Hlen & Hseg & Hst).
  assert (Hn : length segs = S (length split_times)).
  { rewrite Hlen. simpl. rewrite length_app. simpl. lia. }
  split; [done|]. split; [exact Hcuts|]. split; [done|].
  split; [exact (cuts_lookup _ _ _ _ _ Hcuts)|].
  apply load_store in Hload.
  destruct return_path; inv_try Htry; simpl.
  - exists a. split; [done|].
    pose proof (write_segments_length _ _ _ _ _ _ _ Hm) as Hl.
    apply write_segments_written in Hm as (Hw & Hs).
    split; [congruence|]. split; [done|]. congruence.
  - exists a. pose proof (store_segments_engine _ _ _ _ Hm) as He.
    apply store_segments_spec in Hm as (Hall & _ & _).
    split; [done|]. split; [|done].
    apply Forall2_length in Hall. congruence.
Qed.

(** C5 (as amended).  [split_video_at_times] does not validate its split
    times: whatever they are, the call first resolves the video through
    [VideoStore.load]; when the video resolves, it then asks the engine
    for the subclips, and it fails only if the engine raises, on the
    subclip between two consecutive boundaries of
    [[0] + times + [duration]] or on a write; the failure comes from the
    generic exception handler and carries [error_type]. *)
Theorem C5_split_not_validated video_path (split_times : list float)
    output_name return_path w :
  let r := run (SplitVideoAtTimes video_path split_times output_name
                                  return_path) w in
  (exists rest,
     trace (snd r) = (trace w ++ EvVideoStoreLoad video_path :: rest)%list)
  /\ (success (fst r) = true \/ is_Some (error_type (fst r)))
  /\ match VideoStore_load video_path w with
     | (inl e, w1) =>
         fst r = failed e (Some "Error splitting video at times")
     | (inr video, w1) =>
         (exists rest,
            trace (snd r) = (trace w1 ++ EvEngine OpSubclip :: rest)%list)
         /\ (success (fst r) = false ->
             exists e,
               fst r = failed e (Some "Error splitting video at times")
               /\ raised_by_engine video
                    (0%float :: split_times ++ [clip_duration video]) e)
     end.
Proof.
  intros r. subst r. simpl run. unfold split_video_at_times.
  rewrite invoke_finish. cbv zeta. split; [|split].
  - unfold bind at 1.
    assert (Hl : exists evs,
               trace (snd (VideoStore_load video_path w))
               = (trace w ++ EvVideoStoreLoad video_path :: evs)%list).
    { unfold VideoStore_load, VideoFileClip, engine, log_event.
      destruct (video_store w !! video_path); simpl; [by exists []|].
      destruct (e_VideoFileClip eng video_path (engine_state w))
        as [[e|c] s]; simpl; rewrite <- app_assoc; eauto. }
    destruct Hl as (evs & Hl).
    destruct (VideoStore_load video_path w) as [[e|video] w1];
      cbn [fst snd] in *.
    + unfold finish, log_and_fail. simpl. eauto.
    + match goal with
      | |- context [finish ?l ?m (?k w1)] =>
          destruct (finish_emits (fun _ => True) (fun _ => True) k l m w1)
            as (evs2 & Ht & _); [solve_emits; try done|done|]
      end.
      rewrite Ht, Hl, <- app_assoc. simpl. eauto.
  - match goal with
    | |- context [finish ?l ?m ?x] => destruct x as [[e|env] w1] eqn:Htry
    end; simpl; [right; eauto|left].
    inv_try Htry; done.
  - destruct (VideoStore_load video_path w) as [[e|video] w1] eqn:Hl;
      rewrite (bind_run _ _ _ _ _ Hl); [done|].
    fold (clip_duration video).
    set (bounds := (0%float :: split_times ++ [clip_duration video])).
    change ([0%float] ++ split_times ++ [clip_duration video])%list
      with bounds.
    assert (exists b1 b2 rest, bounds = b1 :: b2 :: rest) as (b1 & b2 & bs & Hb).
    { unfold bounds. destruct split_times; simpl; eauto. }
    split.
    + destruct (split_segments_starts video b1 b2 bs w1) as (rest & Hst).
      rewrite <- Hb in Hst.
      destruct (split_segments video bounds w1) as [[e|segs] w2] eqn:Hs;
        rewrite (bind_run _ _ _ _ _ Hs); simpl in Hst; [by exists rest|].
      match goal with
      | |- context [finish ?l ?m (?k ?w0)] =>
          destruct (finish_emits (fun _ => True) (fun _ => True) k l m w0)
            as (evs2 & Ht & _); [solve_emits; try done|done|]
      end.
      rewrite Ht, Hst, <- app_assoc. simpl. eauto.
    + destruct (split_segments video bounds w1) as [[e|segs] w2] eqn:Hs;
        rewrite (bind_run _ _ _ _ _ Hs).
      { intros _. exists e. split; [done|]. left.
        by apply split_segments_raises in Hs. }
      destruct return_path.
      * destruct (write_segments (get_output_path output_name) output_name
                    0 segs w2) as [[e|paths] w3] eqn:Hw;
          rewrite (bind_run _ _ _ _ _ Hw); [|done].
        intros _. exists e. split; [done|]. right.
        by apply write_segments_raises in Hw.
      * destruct (never_raises_store_segments segs w2) as (refs & w3 & Hst).
        by rewrite (bind_run _ _ _ _ _ Hst).
Qed.

(** C6 (as amended).  Every tool other than [get_video_info] resolves its
    video inputs through [VideoStore.load]: when they are known
    references, [load] returns the cached clips without an engine call,
    and a call that passes validation loads each of them from the store
    first and never asks the engine to decode a video file.
    [get_video_info] does not consult the store: even for a known
    reference it starts by asking the engine to open the identifier as a
    file, and only calls the engine. *)
Theorem C6_resolves_through_store (c : Call) w :
  cached (video_inputs c) (video_store w) ->
  let r := run c w in
  Forall (fun id =>
            exists clip,
              video_store w !! id = Some clip
              /\ VideoStore_load id w
                 = (inr clip, log_event (EvVideoStoreLoad id) w))
         (video_inputs c)
  /\ match c with
     | GetVideoInfo _ =>
         exists rest,
           trace (snd r) = (trace w ++ EvEngine OpVideoFileClip :: rest)%list
           /\ Forall engine_event rest
     | _ =>
         (snd r = w /\ success (fst r) = false)
         \/ exists rest,
              trace (snd r)
              = (trace w ++ map EvVideoStoreLoad (video_inputs c)
                         ++ rest)%list
              /\ Forall no_decode rest
     end.
Proof.
  intros Hc r. subst r. split.
  { eapply Forall_impl; [exact Hc|]. intros id [clip Hclip]. exists clip.
    split; [done|]. by apply load_hit. }
  destruct c; simpl run; simpl video_inputs in *;
    unfold cached in Hc;
    repeat match goal with
      | H : Forall _ (_ :: _) |- _ =>
          let x := fresh "clip" in let Hx := fresh "Hclip" in
          apply Forall_cons in H as [[x Hx] H]
      end;
    unfold_tools.
  { unfold get_video_info, VideoFileClip, engine at 1.
    destruct (e_VideoFileClip eng video_path (engine_state w)) as [[e|v] s].
    - exists []. by simpl.
    - unfold get_video_info_except. rewrite invoke_finish.
      match goal with
      | |- context [finish ?l ?m (?k ?w0)] =>
          destruct (finish_emits engine_event (fun _ => True) k l m w0)
            as (evs & Ht & HP & _);
          [unfold get_video_info_rest; solve_emits; by eexists|done|];
          destruct (finish l m (k w0)) as [env w2]
      end.
      simpl in *. unfold close, engine.
      destruct (e_close eng v (engine_state w2)) as [r s']. simpl.
      exists (evs ++ [EvEngine OpClose])%list.
      rewrite Ht, <- !app_assoc. split; [done|].
      apply Forall_app. split; [done|]. constructor; [by eexists|done]. }
  all: rewrite invoke_finish.
  all: repeat match goal with
         | |- context [if ?b then _ else _] => destruct b
         end; try (left; done); right; cbv zeta.
  all: repeat (erewrite bind_load_hit by (simpl; eassumption)).
  all: match goal with
       | |- context [finish ?l ?m (?k ?w0)] =>
           destruct (finish_emits no_decode (fun _ => True) k l m w0)
             as (evs & Ht & HP & _);
           [solve_emits; try done; auto | done
           |exists evs; rewrite Ht; simpl; rewrite <- ?app_assoc; done]
       end.
Qed.

(** The steps of a returning [try] block, as facts on the video store. *)
Ltac store_facts :=
  repeat match goal with
    | H : VideoStore_load _ _ = (inr _, _) |- _ => apply load_store in H
    | H : AudioStore_load _ _ = (inr _, _) |- _ => apply audio_load_store in H
    | H : VideoStore_store _ _ = (inr _, _) |- _ =>
        apply store_inr in H as (? & ? & _)
    | H : split_segments _ _ _ = (inr _, _) |- _ =>
        apply split_segments_spec in H as (_ & _ & H)
    | H : store_segments _ _ = (inr _, _) |- _ =>
        apply store_segments_spec in H as (H & ? & _)
    | H : _ = (inr _, _) |- _ => apply engine_inr in H as (_ & H & _)
    end;
  repeat match goal with
    | H : video_store ?x = video_store ?y |- _ => rewrite H in *; clear H
    end.

(** The steps of a pipeline, one after the other. *)
Ltac run_pipeline :=
  repeat (erewrite bind_run by eassumption; cbv beta iota);
  eassumption.

(** C7 (as amended).  A successful call with [return_path] false returns,
    under [output_object], a reference obtained by registering the
    resulting clip in the store, for every tool but two: the clip is the
    one the engine returns for the tool's transformation of the resolved
    inputs (for [convert_video_format], which transforms nothing, the
    resolved input), the reference is fresh, and registering it is all
    that happens after the clip is made.  [extract_frames] returns the
    raw frames under [output_object] and leaves the store as it was, and
    [split_video_at_times] returns a list of freshly registered
    references under [output_objects]. *)
Theorem C7_object_registered (c : Call) w :
  return_path_of c = Some false ->
  let r := run c w in
  success (fst r) = true ->
  match c with
  | ExtractFrames _ _ _ _ _ _ =>
      exists frames,
        output_object (fst r) = Some (OFrames frames)
        /\ video_store (snd r) = video_store w
  | SplitVideoAtTimes _ _ _ _ =>
      exists refs,
        output_object (fst r) = None
        /\ output_objects (fst r) = Some refs
        /\ Forall (fun ref => video_store w !! ref = None
                              /\ is_Some (video_store (snd r) !! ref)) refs
  | _ =>
      exists ref clip,
        output_object (fst r) = Some (ORef ref)
        /\ video_store w !! ref = None
        /\ video_store (snd r) = <[ref := clip]> (video_store w)
        /\ exists operate w1,
             resulting_clip c = Some operate
             /\ operate w = (inr clip, w1)
             /\ VideoStore_store clip w1 = (inr ref, snd r)
  end.
Proof.
  intros Hrp r Hs. subst r.
  destruct (run_success _ w Hs) as (w' & Htry & Hw'); [by eexists|].
  rewrite Hw'. clear Hw'. remember (fst (run c w)) as env eqn:E. clear E.
  destruct c; simpl in Hrp; simplify_eq; unfold tool_of in Htry.
  all: unfold trim_video, merge_video, resize_video, crop_video,
         rotate_video, speed_up_video, add_audio, fadein_video,
         fadeout_video, add_text_overlay, add_image_overlay,
         grayscale_video, images_to_video, extract_frames, mirror_video,
         split_video_at_times, convert_video_format, add_video_overlay
         in Htry; unfold tool_try in Htry.
  all: inv_try Htry; try discriminate.
  all: try match goal with
       | Hst : VideoStore_store ?clip ?w1 = (inr ?ref, ?w2)
         |- context [resulting_clip ?c] =>
           assert (exists operate w0,
                     resulting_clip c = Some operate
                     /\ operate w = (inr clip, w0)
                     /\ VideoStore_store clip w0 = (inr ref, w2)) as Hop
             by (eexists _, w1; split; [reflexivity|];
                 split; [run_pipeline|exact Hst])
       end.
  all: store_facts; simpl.
  all: try (eexists _, _; split; [reflexivity|]; split; [eassumption|];
            split; [eassumption|exact Hop]).
  - by eexists.
  - exists a1. split; [done|]. split; [done|]. clear Hs.
    induction Hm1 as [|r s refs segs Hr _ IH]; [constructor|].
    apply Forall_cons in H as [Hnone H]. constructor; [eauto|by apply IH].
Qed.

(** C8.  [convert_video_format] with [return_path] false transforms
    nothing.  When the video resolves, the call registers the resolved
    clip itself: the returned reference resolves to that clip, and after
    the resolution the engine is not called (its state is the same and
    the only event is the store's).  When the video does not resolve the
    call fails.  In both cases [codec], [fps] and [bitrate] have no effect
    on the result.  With [return_path] true the resolved clip is written
    by the engine: that branch is the one that encodes. *)
Theorem C8_convert_stores_input video_path output_name codec
    (fps : option Z) (bitrate : option string) w :
  let r := run (ConvertVideoFormat video_path output_name codec fps bitrate
                                   false) w in
  match VideoStore_load video_path w with
  | (inr video, w1) =>
      exists ref,
        fst r = ok_object (ORef ref) None
        /\ fst (VideoStore_load ref (snd r)) = inr video
        /\ video_store (snd r) = <[ref := video]> (video_store w)
        /\ engine_state (snd r) = engine_state w1
        /\ trace (snd r) = (trace w1 ++ [EvVideoStoreStore ref])%list
  | (inl e, w1) =>
      success (fst r) = false /\ video_store (snd r) = video_store w
  end
  /\ (forall codec' fps' bitrate',
        run (ConvertVideoFormat video_path output_name codec' fps' bitrate'
                                false) w = r)
  /\ match VideoStore_load video_path w with
     | (inr video, w1) =>
         trace (snd (run (ConvertVideoFormat video_path output_name codec
                                             fps bitrate true) w))
         = (trace w1 ++ [EvEngine OpWriteVideofile])%list
     | (inl e, w1) => True
     end.
Proof.
  intros r. subst r. split; [|split; [reflexivity|]].
  - simpl run. unfold convert_video_format. rewrite invoke_finish. cbv zeta.
    destruct (VideoStore_load video_path w) as [[e|video] w1] eqn:Hl;
      rewrite (bind_run _ _ _ _ _ Hl); apply load_store in Hl; simpl.
    + done.
    + eexists. split; [reflexivity|]. rewrite Hl. split; [|done].
      erewrite load_hit; [reflexivity|]. simpl. apply lookup_insert_eq.
  - simpl run. unfold convert_video_format. rewrite invoke_finish. cbv zeta.
    destruct (VideoStore_load video_path w) as [[e|video] w1] eqn:Hl;
      [done|]. rewrite (bind_run _ _ _ _ _ Hl).
    unfold bind, write_videofile, engine, finish.
    destruct (e_write_videofile eng video _ _ (engine_state w1))
      as [[e|[]] s]; reflexivity.
Qed.

(** C9.  The reference that [VideoStore.store] returns for a clip resolves
    through [VideoStore.load] to that very clip, hence to a clip of the
    same duration and size, and resolving it does not call the engine. *)
Theorem C9_store_load_roundtrip (clip : Clip) w :
  exists ref w1 clip' w2,
    VideoStore_store clip w = (inr ref, w1)
    /\ VideoStore_load ref w1 = (inr clip', w2)
    /\ clip' = clip
    /\ duration (clip_meta eng clip') = duration (clip_meta eng clip)
    /\ (clip_w (clip_meta eng clip'), clip_h (clip_meta eng clip'))
       = (clip_w (clip_meta eng clip), clip_h (clip_meta eng clip))
    /\ engine_state w2 = engine_state w.
Proof.
  eexists _, _, clip, _. split; [reflexivity|]. split.
  - apply load_hit. simpl. apply lookup_insert_eq.
  - done.
Qed.

(** C10.  A failure envelope carries [error_type] exactly when it was made
    by the generic exception handler, that is when the [try] block raised,
    and [error_type] is then the exception's class name; a failure
    envelope returned by the [try] block itself (argument validation)
    carries [error] and [message] and no [error_type]. *)
Theorem C10_error_type_iff_handler (c : Call) w :
  success (fst (run c w)) = false ->
  (is_Some (error_type (fst (run c w)))
   <-> exists e w1, tool_try (tool_of c) w = (inl e, w1))
  /\ match tool_try (tool_of c) w with
     | (inl e, _) =>
         error_type (fst (run c w)) = Some (exn_type e)
         /\ error (fst (run c w)) = Some (exn_msg e)
     | (inr _, _) =>
         error_type (fst (run c w)) = None
         /\ is_Some (error (fst (run c w)))
         /\ is_Some (message (fst (run c w)))
     end.
Proof.
  intros Hs. pose proof (run_outcome c w) as Ho.
  destruct (tool_try (tool_of c) w) as [[e|env] w1] eqn:Htry.
  - destruct Ho as [msg Ho]. rewrite Ho. simpl. split; [|done].
    split; eauto.
  - rewrite Ho in *. apply try_shape in Htry.
    destruct Htry; try discriminate. simpl. split; [|eauto].
    split; [by intros [? [=]]|]. by intros (e & w2 & [=]).
Qed.


(** ** Relations the tools keep *)

Section Steps.

Context (R : World -> World -> Prop) `{!KeptRelation R}.

Lemma steps_ret {A} (a : A) : steps R (ret a).
Proof. intros w. apply kept_refl. Qed.

Lemma steps_lift {A} (r : Exn + A) : steps R (lift r).
Proof. intros w. apply kept_refl. Qed.

Lemma steps_bind {A B} (m : M A) (k : A -> M B) :
  steps R m -> (forall a, steps R (k a)) -> steps R (bind m k).
Proof.
  intros Hm Hk w. specialize (Hm w). unfold bind.
  destruct (m w) as [[e|a] w1]; [exact Hm|].
  eapply kept_trans; [exact Hm|]. apply Hk.
Qed.

Lemma steps_engine {A} op (f : Eff ES A) : steps R (engine op f).
Proof.
  intros w. unfold engine. destruct (f (engine_state w)) as [r s].
  apply kept_ext.
Qed.

Lemma steps_catch_OSError {A} (m : M A) :
  steps R m -> steps R (catch_OSError m).
Proof.
  intros Hm w. specialize (Hm w). unfold catch_OSError.
  destruct (m w) as [[e|a] w1]; [destruct (is_OSError e)|]; exact Hm.
Qed.

Lemma steps_load identifier : steps R (VideoStore_load identifier).
Proof.
  intros w. unfold VideoStore_load, VideoFileClip, engine, log_event.
  destruct (video_store w !! identifier); simpl; [apply kept_ext|].
  destruct (e_VideoFileClip eng identifier (engine_state w)) as [[e|c] s];
    apply kept_ext.
Qed.

Lemma steps_audio_load identifier : steps R (AudioStore_load identifier).
Proof.
  intros w. unfold AudioStore_load, AudioFileClip, engine, log_event.
  destruct (audio_store w !! identifier); simpl; [apply kept_ext|].
  destruct (e_AudioFileClip eng identifier (engine_state w)) as [[e|c] s];
    apply kept_ext.
Qed.

Lemma steps_write_frames folder frames :
  forall i, steps R (write_frames folder i frames).
Proof.
  induction frames as [|f frames IH]; intros i; simpl.
  - apply steps_ret.
  - apply steps_bind; [apply steps_engine|]. intros _. apply IH.
Qed.

Lemma steps_split_segments video bounds :
  steps R (split_segments video bounds).
Proof.
  induction bounds as [|b1 [|b2 bounds] IH]; simpl; try apply steps_ret.
  apply steps_bind; [apply steps_engine|]. intros seg.
  apply steps_bind; [apply IH|]. intros segs. apply steps_ret.
Qed.

Lemma steps_write_segments output_path output_name segments :
  forall i, steps R (write_segments output_path output_name i segments).
Proof.
  induction segments as [|s segments IH]; intros i; simpl.
  - apply steps_ret.
  - apply steps_bind; [apply steps_engine|]. intros _.
    apply steps_bind; [apply IH|]. intros ps. apply steps_ret.
Qed.

Lemma steps_store_segments segments :
  (forall clip, steps R (VideoStore_store clip)) ->
  steps R (store_segments segments).
Proof.
  intros Hs. induction segments as [|s segments IH]; simpl.
  - apply steps_ret.
  - apply steps_bind; [apply Hs|]. intros r.
    apply steps_bind; [apply IH|]. intros rs. apply steps_ret.
Qed.

End Steps.

(** One rule of [steps] at the head of the computation; a call to
    [VideoStore.store] is left to the caller. *)
Ltac steps_rule l := apply l; try typeclasses eauto.

Ltac steps_step :=
  lazymatch goal with
  | |- steps _ (ret _) => steps_rule steps_ret
  | |- steps _ (lift _) => steps_rule steps_lift
  | |- steps _ (bind _ _) => steps_rule steps_bind; [|intros ?]
  | |- steps _ (if ?b then _ else _) => destruct b
  | |- steps _ (catch_OSError _) => steps_rule steps_catch_OSError
  | |- steps _ (VideoStore_load _) => steps_rule steps_load
  | |- steps _ (VideoStore_store _) => fail
  | |- steps _ (AudioStore_load _) => steps_rule steps_audio_load
  | |- steps _ (split_segments _ _) => steps_rule steps_split_segments
  | |- steps _ (store_segments _) => steps_rule steps_store_segments
  | |- steps _ (write_segments _ _ _ _) => steps_rule steps_write_segments
  | |- steps _ (write_frames _ _ _) => steps_rule steps_write_frames
  | |- steps _ _ => steps_rule steps_engine
  end.

Ltac solve_steps := cbv zeta; repeat steps_step.

#[local] Instance same_video_store_kept : KeptRelation same_video_store.
Proof.
  split; unfold same_video_store; [done| |done].
  intros w1 w2 w3 H1 H2. congruence.
Qed.

#[local] Instance same_audio_store_kept : KeptRelation same_audio_store.
Proof.
  split; unfold same_audio_store; [done| |done].
  intros w1 w2 w3 H1 H2. congruence.
Qed.

#[local] Instance same_errlog_kept : KeptRelation same_errlog.
Proof.
  split; unfold same_errlog; [done| |done].
  intros w1 w2 w3 H1 H2. congruence.
Qed.

#[local] Instance keeps_entries_kept : KeptRelation keeps_entries.
Proof. split; unfold keeps_entries; simpl; eauto. Qed.

Lemma store_same_audio clip : steps same_audio_store (VideoStore_store clip).
Proof. by intros w. Qed.

Lemma store_same_errlog clip : steps same_errlog (VideoStore_store clip).
Proof. by intros w. Qed.

Lemma store_keeps_entries clip : steps keeps_entries (VideoStore_store clip).
Proof.
  intros w k c Hk. simpl. rewrite lookup_insert_ne; [done|].
  intros <-. pose proof (is_fresh (dom (video_store w))) as Hf.
  apply not_elem_of_dom in Hf. congruence.
Qed.

(** The world after a call, from the world after its [try] block. *)
Lemma finish_steps (R : World -> World -> Prop) `{!KeptRelation R}
    (m : M Envelope) logmsg msg w :
  steps R m ->
  (forall w0 s, R w0 (logger_error s w0)) ->
  R w (snd (finish logmsg msg (m w))).
Proof.
  intros Hm Hlog. specialize (Hm w). unfold finish, log_and_fail.
  destruct (m w) as [[e|env] w1]; simpl in *; [|done].
  eapply kept_trans; [exact Hm|]. apply Hlog.
Qed.

Lemma get_video_info_rest_steps (R : World -> World -> Prop)
    `{!KeptRelation R} video_path video :
  steps R (get_video_info_rest video_path video).
Proof. unfold get_video_info_rest. solve_steps. Qed.

Lemma get_video_info_steps (R : World -> World -> Prop) `{!KeptRelation R}
    video_path w :
  (forall w0 s, R w0 (logger_error s w0)) ->
  R w (snd (get_video_info video_path w)).
Proof.
  intros Hlog. unfold get_video_info.
  pose proof (steps_engine R OpVideoFileClip
                (e_VideoFileClip eng video_path) w) as H0.
  fold (VideoFileClip video_path) in H0.
  destruct (VideoFileClip video_path w) as [[e|video] w1]; simpl in *.
  - eapply kept_trans; [exact H0|]. apply Hlog.
  - unfold get_video_info_except. rewrite invoke_finish.
    pose proof (finish_steps R _ ("Error getting video info for "
                                  ++ video_path) None w1
                  (get_video_info_rest_steps R video_path video) Hlog) as H1.
    destruct (finish _ _ _) as [env w2]. simpl in *.
    eapply kept_trans; [exact H0|]. eapply kept_trans; [exact H1|].
    apply (steps_engine R OpClose (e_close eng video) w2).
Qed.

(** A relation kept by the error log and by [VideoStore.store] is kept by
    every call. *)
Lemma run_steps (R : World -> World -> Prop) `{!KeptRelation R} :
  (forall w0 s, R w0 (logger_error s w0)) ->
  (forall clip, steps R (VideoStore_store clip)) ->
  forall c w, R w (snd (run c w)).
Proof.
  intros Hlog Hstore c w.
  destruct c; simpl run; [by apply get_video_info_steps|..];
    unfold_tools; rewrite invoke_finish;
    (apply (finish_steps R); [solve_steps; auto|exact Hlog]).
Qed.

Lemma run_all_steps (R : World -> World -> Prop) `{!KeptRelation R} :
  (forall w0 s, R w0 (logger_error s w0)) ->
  (forall clip, steps R (VideoStore_store clip)) ->
  forall cs w, R w (run_all cs w).
Proof.
  intros Hlog Hstore cs. unfold run_all.
  induction cs as [|c cs IH]; intros w; simpl; [apply kept_refl|].
  eapply kept_trans; [apply (run_steps R Hlog Hstore c w)|]. apply IH.
Qed.

(** ** Further properties of the tools *)

(** X1.  No tool ever changes the audio store: [AudioStore] is only read
    (by [add_audio]), so the tools never produce an audio reference.
    ([AudioStore.load] is as modelled above: an audio file it opens is not
    cached.) *)
Theorem X1_audio_store_read_only (c : Call) w :
  audio_store (snd (run c w)) = audio_store w.
Proof.
  apply (run_steps same_audio_store); [done|]. apply store_same_audio.
Qed.

Lemma run_all_keeps_entries (cs : list Call) w :
  keeps_entries w (run_all cs w).
Proof.
  apply (run_all_steps keeps_entries); [|apply store_keeps_entries].
  intros w0 s k c Hc. exact Hc.
Qed.

(** X2.  Entries of the video store are never removed or rebound: after
    any sequence of calls, a reference that resolved to a clip still
    resolves to that clip, from the cache and without an engine call.
    (The tools only call [load] and [store], which are as modelled above:
    [store] registers under a fresh reference.) *)
Theorem X2_references_persist (cs : list Call) w ref clip :
  video_store w !! ref = Some clip ->
  video_store (run_all cs w) !! ref = Some clip
  /\ VideoStore_load ref (run_all cs w)
     = (inr clip, log_event (EvVideoStoreLoad ref) (run_all cs w)).
Proof.
  intros H. apply (run_all_keeps_entries cs w) in H.
  split; [done|]. by apply load_hit.
Qed.

(** *** When the video store changes *)

Lemma clean_ret {A} (a : A) : clean (ret a).
Proof. intros w e w' H. discriminate. Qed.

Lemma clean_bind {A B} (m : M A) (k : A -> M B) :
  steps same_video_store m -> (forall a, clean (k a)) -> clean (bind m k).
Proof.
  intros Hm Hk w e w' H. specialize (Hm w). unfold bind in H.
  destruct (m w) as [[e0|a] w1]; simpl in Hm.
  - by simplify_eq.
  - apply Hk in H. unfold same_video_store in Hm. congruence.
Qed.

Lemma clean_never {A} (m : M A) : never_raises m -> clean m.
Proof. intros Hm w e w' H. destruct (Hm w) as (a & w1 & Ha). congruence. Qed.

Ltac solve_never_raises :=
  repeat first
    [ apply never_raises_ret
    | apply never_raises_store
    | apply never_raises_store_segments
    | apply never_raises_bind; [|intros ?] ].

Ltac clean_step :=
  lazymatch goal with
  | |- clean (ret _) => apply clean_ret
  | |- clean (if ?b then _ else _) => destruct b
  | |- clean (bind (VideoStore_store _) _) =>
      apply clean_never; solve_never_raises
  | |- clean (bind (store_segments _) _) =>
      apply clean_never; solve_never_raises
  | |- clean (bind _ _) => apply clean_bind; [solve_steps|intros ?]
  end.

Ltac solve_clean := cbv zeta; repeat clean_step.

(** Open the [try] block of a call without unfolding its loops. *)
Ltac open_try :=
  unfold tool_of; unfold_tools;
  unfold get_video_info_try; cbn [tool_try].

(** A [try] block that raises has not touched the video store. *)
Lemma try_clean (c : Call) :
  is_Some (return_path_of c) -> clean (tool_try (tool_of c)).
Proof.
  intros Hrp. destruct c; [by destruct Hrp as [? [=]]|..]; open_try;
    solve_clean.
Qed.

(** A [try] block that returns a failure has changed nothing. *)
Lemma try_failure_unchanged (c : Call) w env w' :
  is_Some (return_path_of c) ->
  tool_try (tool_of c) w = (inr env, w') -> success env = false -> w' = w.
Proof.
  intros Hrp H Hs. destruct c; [by destruct Hrp as [? [=]]|..];
    simpl in H; inv_try H; done.
Qed.

(** With [return_path] true a [try] block does not touch the video store. *)
Lemma try_path_keeps_store (c : Call) :
  return_path_of c = Some true ->
  steps same_video_store (tool_try (tool_of c)).
Proof.
  intros Hrp. destruct c; simpl in Hrp; simplify_eq; open_try;
    cbv iota zeta; solve_steps.
Qed.

Lemma run_invoke (c : Call) w :
  is_Some (return_path_of c) -> run c w = invoke (tool_of c) w.
Proof. intros Hrp. destruct c; try reflexivity. by destruct Hrp as [? [=]]. Qed.

(** X3.  The video store changes only when a call with [return_path]
    false succeeds: a call that fails (by validation or by an exception,
    even one raised after several engine calls), a call with
    [return_path] true and [get_video_info] leave it as it was.
    ([VideoStore.load] is as modelled above: a file it opens is not
    cached.) *)
Theorem X3_store_changes_only_on_stored_success (c : Call) w :
  success (fst (run c w)) = false \/ return_path_of c <> Some false ->
  video_store (snd (run c w)) = video_store w.
Proof.
  intros H. destruct (return_path_of c) as [rp|] eqn:Hrp.
  - destruct (tool_except_fails c) as (logmsg & msg & Hex).
    rewrite run_invoke in * by (rewrite Hrp; eauto).
    unfold invoke in *. rewrite Hex in *.
    destruct (tool_try (tool_of c) w) as [[e|env] w1] eqn:Htry.
    + simpl. eapply try_clean; [|exact Htry]. rewrite Hrp. eauto.
    + simpl in *. destruct rp.
      * pose proof (try_path_keeps_store c Hrp w) as Hk.
        rewrite Htry in Hk. exact Hk.
      * destruct H as [Hs|Hne]; [|congruence].
        apply try_failure_unchanged in Htry; [by subst|rewrite Hrp; eauto|done].
  - destruct c; simpl in Hrp; try discriminate.
    apply (get_video_info_steps same_video_store). done.
Qed.

(** X4.  Every reference a call returns, under [output_object] or in
    [output_objects], is new (it did not resolve before the call),
    resolves to a clip in the world the call leaves, and keeps resolving
    to that clip after any further sequence of calls: the output of one
    tool can be the input of later ones. *)
Theorem X4_returned_references_resolve (c : Call) w ref :
  output_object (fst (run c w)) = Some (ORef ref)
  \/ (exists refs,
        output_objects (fst (run c w)) = Some refs /\ ref ∈ refs) ->
  exists clip,
    video_store w !! ref = None
    /\ video_store (snd (run c w)) !! ref = Some clip
    /\ forall cs,
         fst (VideoStore_load ref (run_all cs (snd (run c w)))) = inr clip.
Proof.
  intros H.
  assert (Hok : success (fst (run c w)) = true
                /\ return_path_of c = Some false).
  { pose proof (run_outcome c w) as Ho.
    destruct (tool_try (tool_of c) w) as [[e|env] w1] eqn:Htry.
    - destruct Ho as [msg Ho]. rewrite Ho in H. simpl in H.
      destruct H as [[=]|(refs & [=] & _)].
    - rewrite Ho in *. apply try_shape in Htry.
      destruct Htry; simpl in H; try done;
        destruct H as [[=]|(refs & [=] & _)]. }
  destruct Hok as [Hs Hrp].
  destruct (run_success _ w Hs) as (w' & Htry & Hw'); [rewrite Hrp; eauto|].
  rewrite Hw'. clear Hw'. remember (fst (run c w)) as env eqn:E. clear E.
  assert (Hfin : forall clip,
             video_store w' !! ref = Some clip ->
             forall cs, fst (VideoStore_load ref (run_all cs w')) = inr clip).
  { intros clip Hc cs. apply (run_all_keeps_entries cs w') in Hc.
    by rewrite (load_hit _ _ _ Hc). }
  destruct c; simpl in Hrp; simplify_eq; unfold tool_of in Htry.
  all: unfold trim_video, merge_video, resize_video, crop_video,
         rotate_video, speed_up_video, add_audio, fadein_video,
         fadeout_video, add_text_overlay, add_image_overlay,
         grayscale_video, images_to_video, extract_frames, mirror_video,
         split_video_at_times, convert_video_format, add_video_overlay
         in Htry; unfold tool_try in Htry.
  all: inv_try Htry; try discriminate; store_facts; simpl in H.
  all: destruct H as [H|(refs & H & Hin)]; try discriminate.
  all: try (simplify_eq;
            match goal with
            | Hst : video_store ?w1 = <[?r := ?x]> _ |- _ =>
                exists x; split; [done|];
                assert (Hl : video_store w1 !! r = Some x)
                  by (rewrite Hst; apply lookup_insert_eq);
                split; [exact Hl|by apply Hfin]
            end).
  simplify_eq. apply list_elem_of_lookup in Hin as [i Hi].
  match goal with
  | Hall : Forall2 _ _ _, Hnone : Forall _ _ |- _ =>
      destruct (Forall2_lookup_l _ _ _ _ _ Hall Hi) as (seg & _ & Hseg);
      rewrite Forall_lookup in Hnone; specialize (Hnone _ _ Hi)
  end.
  exists seg. split; [done|]. split; [done|]. by apply Hfin.
Qed.

(** *** What is written, and where *)

Lemma get_video_info_emits (P : Event -> Prop) video_path w :
  P (EvEngine OpVideoFileClip) -> P (EvEngine OpGetsize) ->
  P (EvEngine OpClose) ->
  exists evs,
    trace (snd (get_video_info video_path w)) = (trace w ++ evs)%list
    /\ Forall P evs.
Proof.
  intros Ho Hg Hc. unfold get_video_info, VideoFileClip, engine at 1.
  destruct (e_VideoFileClip eng video_path (engine_state w)) as [[e|v] s].
  - exists [EvEngine OpVideoFileClip]. simpl. auto.
  - unfold get_video_info_except. rewrite invoke_finish.
    match goal with
    | |- context [finish ?l ?m (?k ?w0)] =>
        destruct (finish_emits P (fun _ => True) k l m w0)
          as (evs & Ht & HP & _);
        [unfold get_video_info_rest; solve_emits; done|done|];
        destruct (finish l m (k w0)) as [env w2]
    end.
    simpl in *. unfold close, engine.
    destruct (e_close eng v (engine_state w2)) as [r s']. simpl.
    exists (EvEngine OpVideoFileClip :: evs ++ [EvEngine OpClose])%list.
    rewrite Ht, <- !app_assoc. split; [done|].
    constructor; [done|]. apply Forall_app. auto.
Qed.

(** X5.  Unless [return_path] is true, a call writes no file: it never
    calls [write_videofile], [imageio.imwrite] or [os.makedirs], whether
    it succeeds or fails. *)
Theorem X5_no_file_written (c : Call) w :
  return_path_of c <> Some true ->
  exists evs,
    trace (snd (run c w)) = (trace w ++ evs)%list /\ Forall no_write evs.
Proof.
  intros Hrp.
  destruct c; simpl run;
    [apply get_video_info_emits; by repeat split|..];
    simpl in Hrp; (destruct return_path; [congruence|]); clear Hrp;
    unfold_tools; rewrite invoke_finish.
  all: match goal with
       | |- context [finish ?l ?m (?k ?w0)] =>
           destruct (finish_emits no_write (fun _ => True) k l m w0)
             as (evs & Ht & HP & _);
           [cbv iota zeta; solve_emits;
            try (left; by repeat split); try (by repeat split); auto
           |done|by exists evs]
       end.
Qed.

Lemma load_trace identifier w r w' :
  VideoStore_load identifier w = (r, w') ->
  exists evs, trace w' = (trace w ++ evs)%list.
Proof.
  unfold VideoStore_load, VideoFileClip, engine, log_event.
  destruct (video_store w !! identifier); [intros [= <- <-]; simpl; eauto|].
  simpl. destruct (e_VideoFileClip eng identifier (engine_state w))
    as [[e|c] s]; intros [= <- <-]; simpl; rewrite <- app_assoc; eauto.
Qed.

Lemma audio_load_trace identifier w r w' :
  AudioStore_load identifier w = (r, w') ->
  exists evs, trace w' = (trace w ++ evs)%list.
Proof.
  unfold AudioStore_load, AudioFileClip, engine, log_event.
  destruct (audio_store w !! identifier); [intros [= <- <-]; simpl; eauto|].
  simpl. destruct (e_AudioFileClip eng identifier (engine_state w))
    as [[e|c] s]; intros [= <- <-]; simpl; rewrite <- app_assoc; eauto.
Qed.

(** The steps of a returning [try] block, as facts on the trace. *)
Ltac trace_facts :=
  repeat match goal with
    | H : VideoStore_load _ _ = (inr _, _) |- _ =>
        apply load_trace in H as [? H]
    | H : AudioStore_load _ _ = (inr _, _) |- _ =>
        apply audio_load_trace in H as [? H]
    | H : _ = (inr _, _) |- _ => apply engine_inr in H as (_ & _ & H)
    end.

Ltac chain_trace :=
  repeat match goal with
    | H : trace ?x = _ |- _ => rewrite H; clear H
    end.

(** X6.  A successful call with [return_path] true reports the location
    the path resolver gives for its [output_name], and writing the file
    there is the last thing it does; [extract_frames] is the exception:
    it reports the folder name it was given, unresolved. *)
Theorem X6_output_path_resolved (c : Call) w :
  return_path_of c = Some true ->
  success (fst (run c w)) = true ->
  match c with
  | ExtractFrames _ _ _ _ output_folder_name _ =>
      output_path (fst (run c w)) = Some output_folder_name
  | SplitVideoAtTimes _ _ _ _ => output_path (fst (run c w)) = None
  | _ =>
      output_path (fst (run c w)) = get_output_path <$> output_name_of c
      /\ exists evs,
           trace (snd (run c w)) = (trace w ++ evs)%list
           /\ last evs = Some (EvEngine OpWriteVideofile)
  end.
Proof.
  intros Hrp Hs.
  destruct (run_success _ w Hs) as (w' & Htry & Hw'); [rewrite Hrp; eauto|].
  rewrite Hw'. clear Hw'. remember (fst (run c w)) as env eqn:E. clear E.
  destruct c; simpl in Hrp; simplify_eq; unfold tool_of in Htry.
  all: unfold trim_video, merge_video, resize_video, crop_video,
         rotate_video, speed_up_video, add_audio, fadein_video,
         fadeout_video, add_text_overlay, add_image_overlay,
         grayscale_video, images_to_video, extract_frames, mirror_video,
         split_video_at_times, convert_video_format, add_video_overlay
         in Htry; unfold tool_try in Htry.
  all: inv_try Htry; try discriminate; try reflexivity.
  all: split; [reflexivity|]; trace_facts; chain_trace.
  all: eexists; (split; [rewrite <- !app_assoc; reflexivity|]).
  all: rewrite ?app_assoc; apply last_snoc.
Qed.

(** *** The files of a split *)

Lemma string_app_cons (c : ascii) (s t : string) :
  String c s ++ t = String c (s ++ t).
Proof. reflexivity. Qed.

Lemma string_length_app (s1 s2 : string) :
  String.length (s1 ++ s2) = (String.length s1 + String.length s2)%nat.
Proof.
  induction s1 as [|c s1 IH]; [done|].
  rewrite string_app_cons. simpl. by rewrite IH.
Qed.

Lemma string_app_assoc (s1 s2 s3 : string) :
  s1 ++ (s2 ++ s3) = (s1 ++ s2) ++ s3.
Proof.
  induction s1 as [|c s1 IH]; [done|].
  rewrite !string_app_cons. by f_equal.
Qed.

Lemma string_app_inv_tail (t s1 s2 : string) :
  s1 ++ t = s2 ++ t -> s1 = s2.
Proof.
  revert s2. induction s1 as [|c s1 IH]; intros [|c2 s2] H.
  - done.
  - apply (f_equal String.length) in H.
    rewrite !string_length_app in H. simpl in H. lia.
  - apply (f_equal String.length) in H.
    rewrite !string_length_app in H. simpl in H. lia.
  - rewrite !string_app_cons in H. injection H as -> H. f_equal.
    by apply IH.
Qed.

(** On a given directory, [os.path.join] prepends a prefix that depends
    on the first character of the name only. *)
Lemma os_path_join_prefix (a : string) (c : ascii) :
  exists pre, forall t, os_path_join a (String c t) = pre ++ String c t.
Proof.
  unfold os_path_join. destruct (is_slash c); [by exists ""|].
  destruct (last_char a) as [l|]; [|by exists ""].
  destruct (is_slash l); [by exists a|]. exists (a ++ "/").
  intros t. by rewrite <- string_app_assoc.
Qed.

Lemma segment_path_inj output_path output_name i j :
  segment_path output_path output_name i
  = segment_path output_path output_name j -> i = j.
Proof.
  unfold segment_path. intros H.
  assert (Hb : output_name ++ "_part_" ++ pretty (i + 1)%nat ++ ".mp4"
               = output_name ++ "_part_" ++ pretty (j + 1)%nat ++ ".mp4").
  { destruct output_name as [|c n].
    - change ("" ++ "_part_" ++ ?s) with (String "_" ("part_" ++ s)) in *.
      destruct (os_path_join_prefix output_path "_"%char) as [pre Hpre].
      rewrite !Hpre in H. by apply String.app_inj in H.
    - rewrite !string_app_cons in *.
      destruct (os_path_join_prefix output_path c) as [pre Hpre].
      rewrite !Hpre in H. by apply String.app_inj in H. }
  apply String.app_inj in Hb. apply (String.app_inj "_part_") in Hb.
  apply string_app_inv_tail in Hb. apply (inj pretty) in Hb. lia.
Qed.

Lemma write_segments_paths output_path output_name (segs : list Clip) :
  forall i w paths w',
    write_segments output_path output_name i segs w = (inr paths, w') ->
    paths = map (segment_path output_path output_name) (seq i (length segs)).
Proof.
  induction segs as [|s segs IH]; intros i w paths w' H; simpl in H.
  - apply ret_inr in H as [<- <-]. done.
  - inv_try H. apply IH in Hm0. simpl. by rewrite Hm0.
Qed.

(** X7.  A successful [split_video_at_times] with [return_path] true on
    [n] split times reports [n + 1] paths, in order: part [i] (counted
    from 1) is [<output_name>_part_<i>.mp4] inside the location the path
    resolver gives for [output_name], used as a directory.  The paths are
    pairwise distinct, so no segment overwrites another. *)
Theorem X7_split_paths video_path (split_times : list float) output_name w :
  let r := run (SplitVideoAtTimes video_path split_times output_name true)
               w in
  success (fst r) = true ->
  output_paths (fst r)
  = Some (map (segment_path (get_output_path output_name) output_name)
              (seq 0 (S (length split_times))))
  /\ NoDup (map (segment_path (get_output_path output_name) output_name)
                (seq 0 (S (length split_times)))).
Proof.
  intros r Hs. subst r. split.
  - destruct (run_success _ w Hs) as (w' & Htry & _); [by eexists|].
    remember (fst (run _ w)) as env eqn:E. clear E Hs.
    unfold tool_of, split_video_at_times, tool_try in Htry.
    cbv zeta in Htry. apply bind_inr in Htry as (video & w1 & _ & Htry).
    apply bind_inr in Htry as (segs & w2 & Hsplit & Htry).
    apply split_segments_spec in Hsplit as (Hlen & _ & _).
    apply bind_inr in Htry as (paths & w3 & Hw & Htry).
    apply ret_inr in Htry as [<- _]. simpl.
    apply write_segments_paths in Hw. rewrite Hw, Hlen. simpl.
    by rewrite length_app, Nat.add_1_r.
  - apply NoDup_fmap_2_strong; [|apply NoDup_seq].
    intros i j _ _. apply segment_path_inj.
Qed.

(** *** Validation *)

Lemma blank_lstrip s : blank s = true -> lstrip s = [].
Proof.
  induction s as [|c s IH]; simpl; [done|].
  intros [Hc Hs]%andb_true_iff. rewrite Hc. auto.
Qed.

Lemma lstrip_blank s : blank (lstrip s) = true -> blank s = true.
Proof.
  induction s as [|c s IH]; simpl; [done|].
  destruct (is_space c) eqn:Hc; simpl; [auto|].
  by rewrite Hc.
Qed.

Lemma rstrip_blank s : rstrip s = [] -> blank s = true.
Proof.
  induction s as [|c s IH]; simpl; [done|].
  destruct (rstrip s); [|done].
  destruct (is_space c); [auto|done].
Qed.

(** [text.strip()] is empty exactly when the text is blank. *)
Lemma py_strip_blank s : text_truthy (py_strip s) = false <-> blank s = true.
Proof.
  unfold py_strip. split.
  - intros H. apply lstrip_blank, rstrip_blank.
    by destruct (rstrip (lstrip s)).
  - intros H. by rewrite (blank_lstrip _ H).
Qed.

Lemma text_truthy_blank s : text_truthy s = false -> blank s = true.
Proof. by destruct s. Qed.

(** A time after a time that is not negative is not negative. *)
Lemma float_after_nonnegative s e :
  (0 <=? s)%float = true -> (s <? e)%float = true -> (e <? 0)%float = false.
Proof.
  rewrite FloatAxioms.leb_spec, !FloatAxioms.ltb_spec.
  change (Prim2SF 0) with (S754_zero false).
  destruct (Prim2SF s) as [[]|[]| |[] ms es],
    (Prim2SF e) as [[]|[]| |[] me ee]; by simpl.
Qed.

(** Booleans of the validation tests, as order facts. *)
Ltac order_facts :=
  repeat match goal with
    | H : _ || _ = true |- _ => apply orb_true_iff in H as [H|H]
    | H : _ || _ = false |- _ => apply orb_false_iff in H as [? H]
    | H : _ && _ = true |- _ => apply andb_true_iff in H as [? H]
    | H : negb _ = true |- _ => apply negb_true_iff in H
    | H : negb _ = false |- _ => apply negb_false_iff in H
    | H : (_ <? _)%Z = true |- _ => apply Z.ltb_lt in H
    | H : (_ <? _)%Z = false |- _ => apply Z.ltb_ge in H
    | H : (_ <=? _)%Z = true |- _ => apply Z.leb_le in H
    | H : (_ <=? _)%Z = false |- _ => apply Z.leb_gt in H
    end.

(** X8.  Validation rejects only what it should: a failure envelope
    without [error_type] is returned only when the arguments violate the
    tool's precondition or, for [add_text_overlay], when the text is
    blank (empty, or made of Unicode whitespace only).  In particular the
    ten tools without a validation step never return one, and a trim that
    starts at 0 is accepted. *)
Theorem X8_validation_rejects_only_invalid (c : Call) w :
  success (fst (run c w)) = false ->
  error_type (fst (run c w)) = None ->
  spec_precondition c = false \/ call_text_blank c = true.
Proof.
  intros Hs He. pose proof (run_outcome c w) as Ho.
  destruct (tool_try (tool_of c) w) as [[e|env] w1] eqn:Htry.
  { destruct Ho as [msg Ho]. by rewrite Ho in He. }
  rewrite Ho in *. clear Ho He.
  destruct c; simpl in Htry;
    try (unfold get_video_info_try, get_video_info_rest in Htry);
    inv_try Htry; try discriminate; simpl.
  - left. apply andb_false_iff. order_facts.
    + left. by apply float_ltb_leb.
    + destruct (0 <=? start_time)%float eqn:E1; [right|by left].
      destruct (start_time <? end_time)%float eqn:E2; [|done].
      by rewrite (float_after_nonnegative _ _ E1 E2) in Hb.
  - left. apply andb_false_iff. right. by apply float_leb_ltb.
  - left. unfold size_invalid in Hb.
    destruct size as [|width [|height [|? ?]]]; try done.
    simpl in Hb. apply andb_false_iff. order_facts.
    + left. apply Z.ltb_ge. lia.
    + right. apply Z.ltb_ge. lia.
  - left. order_facts; rewrite !andb_false_iff;
      [left; left; left; apply Z.leb_gt; lia
      |left; left; right; apply Z.leb_gt; lia
      |left; right; apply Z.ltb_ge; lia
      |right; apply Z.ltb_ge; lia].
  - left. by apply negb_true_iff.
  - left. by apply float_leb_ltb.
  - left. by apply float_leb_ltb.
  - left. by apply float_leb_ltb.
  - right. order_facts; [by apply text_truthy_blank|by apply py_strip_blank].
  - left. order_facts. rewrite !andb_false_iff. left. right.
    apply Z.ltb_ge. lia.
  - left. rewrite !andb_false_iff. right. by apply float_leb_ltb.
  - left. by apply float_leb_ltb.
Qed.

(** X9.  [add_text_overlay] rejects a text that is empty or made of
    whitespace only, whatever the other arguments, with the error
    "Text cannot be empty" and before anything is touched. *)
Theorem X9_blank_text_rejected video_path text x y font_size color duration
    output_name return_path path_of_imagemagick w :
  blank text = true ->
  run (AddTextOverlay video_path text x y font_size color duration
                      output_name return_path path_of_imagemagick) w
  = (invalid "Text cannot be empty" "Invalid text parameter", w).
Proof.
  intros H. apply py_strip_blank in H. simpl run. unfold add_text_overlay.
  rewrite invoke_finish, H. by rewrite orb_true_r.
Qed.

(** *** The error log *)

Lemma try_keeps_errlog (c : Call) : steps same_errlog (tool_try (tool_of c)).
Proof.
  destruct c; open_try; try unfold get_video_info_rest; solve_steps;
    try apply store_same_errlog;
    intros; apply store_same_errlog.
Qed.

(** The [finally] clause of [get_video_info] logs nothing. *)
Lemma run_errlog (c : Call) w :
  errlog (snd (run c w)) = errlog (snd (invoke (tool_of c) w)).
Proof.
  destruct c; try reflexivity.
  simpl. unfold get_video_info, invoke, get_video_info_try. simpl.
  unfold bind at 1.
  destruct (VideoFileClip video_path w) as [[e|video] w1]; simpl.
  - reflexivity.
  - destruct (get_video_info_rest video_path video w1) as [[e|env] w2];
      simpl; unfold close, engine;
      match goal with
      | |- context [e_close eng video ?s] =>
          by destruct (e_close eng video s)
      end.
Qed.

(** X10.  A call writes to the error log exactly when its envelope
    carries [error_type]: then it appends one record, which ends with a
    colon and the text of [error]; a success or a validation failure logs
    nothing. *)
Theorem X10_logged_iff_error_type (c : Call) w :
  match error_type (fst (run c w)) with
  | Some _ =>
      exists pre err,
        error (fst (run c w)) = Some err
        /\ errlog (snd (run c w))
           = (errlog w ++ [(pre ++ ": " ++ err)%string])%list
  | None => errlog (snd (run c w)) = errlog w
  end.
Proof.
  rewrite run_errlog, run_fst. unfold invoke.
  destruct (tool_except_fails c) as (logmsg & msg & ->).
  pose proof (try_keeps_errlog c w) as Hk. unfold same_errlog in Hk.
  destruct (tool_try (tool_of c) w) as [[e|env] w1] eqn:Htry; simpl in *.
  - exists logmsg, (exn_msg e). by rewrite Hk.
  - apply try_shape in Htry. by destruct Htry.
Qed.

(** *** Dictionaries *)

Lemma dict_get_set_eq k v d : dict_get k (dict_set k v d) = Some v.
Proof.
  induction d as [|[k' v'] d IH]; simpl.
  - by rewrite String.eqb_refl.
  - destruct (String.eqb k k') eqn:E; simpl; rewrite ?E, ?String.eqb_refl;
      done.
Qed.

Lemma dict_get_set_ne k k' v d :
  String.eqb k k' = false -> dict_get k (dict_set k' v d) = dict_get k d.
Proof.
  intros Hne. induction d as [|[k2 v2] d IH]; simpl.
  - by rewrite Hne.
  - destruct (String.eqb k' k2) eqn:E; simpl.
    + apply String.eqb_eq in E as <-. by rewrite Hne.
    + by rewrite IH.
Qed.

(** [d.update(u)] leaves the keys that [u] does not have. *)
Lemma dict_get_update_other k d u :
  existsb (String.eqb k) (map fst u) = false ->
  dict_get k (dict_update d u) = dict_get k d.
Proof.
  unfold dict_update. revert d.
  induction u as [|[k' v'] u IH]; intros d H; simpl in *; [done|].
  apply orb_false_iff in H as [Hne H]. rewrite IH by done.
  by apply dict_get_set_ne.
Qed.

Lemma drop_none_keys k l :
  existsb (String.eqb k) (map fst l) = false ->
  existsb (String.eqb k) (map fst (drop_none l)) = false.
Proof.
  unfold drop_none. induction l as [|[k' v'] l IH]; simpl; [done|].
  intros [Hne H]%orb_false_iff.
  destruct v'; simpl; rewrite ?Hne; auto.
Qed.

Lemma dict_get_update_drop_none k d l :
  existsb (String.eqb k) (map fst l) = false ->
  dict_get k (dict_update d (drop_none l)) = dict_get k d.
Proof. intros H. by apply dict_get_update_other, drop_none_keys. Qed.

(** Look a key up through the updates of a dictionary. *)
Ltac dict_lookup :=
  repeat first
    [ rewrite dict_get_set_eq
    | rewrite dict_get_set_ne by reflexivity
    | rewrite dict_get_update_drop_none by reflexivity
    | rewrite dict_get_update_other by reflexivity ].

(** *** [get_video_info] *)

(** X11.  [get_video_info] releases the clip it opens.  When
    [VideoFileClip] raises, nothing else is called.  When it returns a
    clip, the engine calls that follow are [getsize], then [close] once or
    twice: the last call is always [close], whatever was raised in
    between, and a successful call closes the clip twice (once in the
    [try] block, once in the [finally] clause). *)
Theorem X11_get_video_info_closes_clip video_path w :
  let r := get_video_info video_path w in
  match VideoFileClip video_path w with
  | (inl e, w1) =>
      fst r = failed e None
      /\ trace (snd r) = (trace w ++ [EvEngine OpVideoFileClip])%list
  | (inr video, w1) =>
      exists mid,
        trace (snd r)
        = (trace w ++ [EvEngine OpVideoFileClip] ++ mid
                   ++ [EvEngine OpClose])%list
        /\ (mid = [EvEngine OpGetsize]
            \/ mid = [EvEngine OpGetsize; EvEngine OpClose])
        /\ (success (fst r) = true
            -> mid = [EvEngine OpGetsize; EvEngine OpClose])
  end.
Proof.
  unfold get_video_info, VideoFileClip, engine.
  destruct (e_VideoFileClip eng video_path (engine_state w)) as [[e|v] s];
    [by split|].
  unfold get_video_info_except. rewrite invoke_finish.
  unfold finish, get_video_info_rest, get_video_info_finally, log_and_fail,
    logger_error, bind, catch_OSError, getsize, close, engine, ret, lift,
    log_event.
  cbv zeta. simpl.
  destruct (e_getsize eng video_path s) as [[e1|n] s1]; simpl;
    [destruct (is_OSError e1); simpl|];
    try destruct (0 <? duration (clip_meta eng v))%float; simpl;
    try destruct (float_truthy (fps (clip_meta eng v))); simpl;
    try destruct (py_int _) as [?|?]; simpl;
    repeat match goal with
           | |- context [e_close eng ?c ?s0] =>
               let o := fresh "o" in
               destruct (e_close eng c s0) as [[?|?] ?]; simpl
           end;
    rewrite <- ?app_assoc; simpl.
  all: first
         [ exists [EvEngine OpGetsize]; split_and!; [done|by left|done]
         | exists [EvEngine OpGetsize; EvEngine OpClose];
           split_and!; [done|by right|done] ].
Qed.

(** [get_video_info_rest] builds its dictionary by the stages of
    [video_info_dict]. *)
Lemma get_video_info_rest_stages video_path video w :
  get_video_info_rest video_path video w
  = (file_size <- catch_OSError (getsize video_path) ;;
     info <- lift (video_info_dict video_path (clip_meta eng video)
                     file_size) ;;
     _ <- close video ;;
     ret (mkEnvelope true None None None None (Some info) None None None)) w.
Proof.
  unfold get_video_info_rest. cbv zeta.
  destruct (catch_OSError (getsize video_path) w) as [[e|file_size] w1]
    eqn:Hc; do 2 rewrite (bind_run _ _ _ _ _ Hc); [done|].
  unfold video_info_dict, total_frames_of. cbv zeta.
  unfold bind, lift, ret.
  destruct (0 <? duration (clip_meta eng video))%float; [|done].
  destruct (float_truthy (fps (clip_meta eng video))); [|done].
  by destruct (py_int _).
Qed.

Lemma get_video_info_fst video_path w video w1 :
  VideoFileClip video_path w = (inr video, w1) ->
  fst (get_video_info video_path w)
  = match get_video_info_rest video_path video w1 with
    | (inl e, _) => failed e None
    | (inr env, _) => env
    end.
Proof.
  intros Hv. unfold get_video_info. rewrite Hv.
  unfold get_video_info_except. rewrite invoke_finish. unfold finish.
  by destruct (get_video_info_rest video_path video w1) as [[e|env] w2].
Qed.

Lemma with_metrics_other k m total_frames info :
  String.eqb k "total_frames" = false ->
  String.eqb k "average_bitrate_kbps" = false ->
  dict_get k (with_metrics m total_frames info) = dict_get k info.
Proof.
  intros H1 H2. unfold with_metrics. cbv zeta.
  destruct (dict_get "file_size_bytes" _) as [[| |n| | |]|];
    try destruct (n =? 0)%Z;
    by rewrite ?(dict_get_set_ne _ _ _ _ H2), ?(dict_get_set_ne _ _ _ _ H1).
Qed.

Lemma with_file_size_other k file_size info :
  String.eqb k "file_size_bytes" = false ->
  String.eqb k "file_size_mb" = false ->
  dict_get k (with_file_size file_size info) = dict_get k info.
Proof.
  intros H1 H2. unfold with_file_size.
  by destruct file_size;
    rewrite (dict_get_set_ne _ _ _ _ H2), (dict_get_set_ne _ _ _ _ H1).
Qed.

Lemma with_reader_info_other k m info :
  existsb (String.eqb k) ["nframes"; "bitrate"; "codec"; "pix_fmt"] = false ->
  dict_get k (with_reader_info m info) = dict_get k info.
Proof.
  intros H. unfold with_reader_info. destruct (reader m); [|done].
  by apply dict_get_update_drop_none.
Qed.

(** The audio fields, whatever the audio reader knows. *)
Ltac audio_cases m :=
  unfold audio_info_of, drop_none, dict_update;
  destruct (audio m) as [[? ? ? [[[?|] [?|] [?|]]|]]|];
  simpl.

Lemma audio_info_other k m info :
  existsb (String.eqb k)
    ["has_audio"; "audio_duration"; "audio_fps"; "audio_channels";
     "audio_bitrate"; "audio_codec"; "sample_rate"] = false ->
  dict_get k (dict_update info (audio_info_of m)) = dict_get k info.
Proof.
  intros H. cbn [existsb] in H. rewrite !orb_false_iff in H.
  destruct H as (?&?&?&?&?&?&?&_).
  audio_cases m; by rewrite !dict_get_set_ne by assumption.
Qed.

Lemma audio_info_has_audio m info :
  dict_get "has_audio" (dict_update info (audio_info_of m))
  = Some (VBool (match audio m with Some _ => true | None => false end)).
Proof. audio_cases m; by dict_lookup. Qed.

Lemma audio_info_keys m info :
  Forall (fun k => is_Some (dict_get k (dict_update info (audio_info_of m))))
    ["has_audio"; "audio_duration"; "audio_fps"; "audio_channels"].
Proof.
  rewrite !Forall_cons, Forall_nil.
  audio_cases m; dict_lookup; split_and!; by eexists.
Qed.

Lemma with_file_size_bytes file_size info :
  dict_get "file_size_bytes" (with_file_size file_size info)
  = Some (opt_val VInt file_size).
Proof. unfold with_file_size. destruct file_size; by dict_lookup. Qed.

Lemma with_file_size_mb file_size info :
  dict_get "file_size_mb" (with_file_size file_size info)
  = Some (match file_size with
          | Some n => VFloat (py_round2 (int_truediv n (1024 * 1024)))
          | None => VNone
          end).
Proof. unfold with_file_size. destruct file_size; by dict_lookup. Qed.

Lemma with_metrics_total_frames m total_frames info :
  dict_get "total_frames" (with_metrics m total_frames info)
  = Some total_frames.
Proof.
  unfold with_metrics. cbv zeta.
  destruct (dict_get "file_size_bytes" _) as [[| |n| | |]|];
    try destruct (n =? 0)%Z; by dict_lookup.
Qed.

Lemma with_metrics_bitrate m total_frames info size :
  dict_get "file_size_bytes" info = Some (opt_val VInt size) ->
  dict_get "average_bitrate_kbps" info = None ->
  dict_get "average_bitrate_kbps" (with_metrics m total_frames info)
  = match size with
    | Some n =>
        if (n =? 0)%Z then None
        else Some (VFloat (py_round2 (float_of_int (n * 8)
                                      / (duration m * 1000))%float))
    | None => None
    end.
Proof.
  intros Hb Ha. unfold with_metrics. cbv zeta.
  rewrite dict_get_set_ne, Hb by reflexivity.
  destruct size as [n|]; simpl; [destruct (n =? 0)%Z; simpl|];
    by dict_lookup.
Qed.

(** A key of the basic attributes keeps its value to the end. *)
Lemma sized_info_basic k video_path m file_size :
  existsb (String.eqb k)
    ["file_path"; "filename"; "duration"; "fps"; "size"; "width"; "height";
     "aspect_ratio"] = true ->
  dict_get k (sized_info video_path m file_size)
  = dict_get k (basic_info video_path m).
Proof.
  intros H. unfold sized_info. simpl in H.
  repeat (apply orb_true_iff in H as [->%String.eqb_eq|H]);
    [..|discriminate];
    by rewrite with_file_size_other, audio_info_other,
         with_reader_info_other.
Qed.

(** The reader's and the audio track's fields do not touch the metrics. *)
Lemma sized_info_no_metrics k video_path m file_size :
  existsb (String.eqb k) ["total_frames"; "average_bitrate_kbps"] = true ->
  dict_get k (sized_info video_path m file_size) = None.
Proof.
  intros H. unfold sized_info. simpl in H.
  repeat (apply orb_true_iff in H as [->%String.eqb_eq|H]);
    [..|discriminate];
    by rewrite with_file_size_other, audio_info_other,
         with_reader_info_other.
Qed.

(** What a key of the dictionary before the metrics becomes. *)
Lemma video_info_dict_other k video_path m file_size info :
  video_info_dict video_path m file_size = inr info ->
  String.eqb k "total_frames" = false ->
  String.eqb k "average_bitrate_kbps" = false ->
  dict_get k info = dict_get k (sized_info video_path m file_size).
Proof.
  unfold video_info_dict. cbv zeta. intros H H1 H2.
  destruct (0 <? duration m)%float; [|by simplify_eq].
  destruct (total_frames_of m) as [e|tf]; simplify_eq.
  by apply with_metrics_other.
Qed.

(** A successful [get_video_info] returns the staged dictionary. *)
Lemma get_video_info_success video_path w video w1 :
  VideoFileClip video_path w = (inr video, w1) ->
  success (fst (get_video_info video_path w)) = true ->
  exists file_size info,
    fst (catch_OSError (getsize video_path) w1) = inr file_size
    /\ video_info_dict video_path (clip_meta eng video) file_size = inr info
    /\ video_info (fst (get_video_info video_path w)) = Some info.
Proof.
  intros Hv Hs. rewrite (get_video_info_fst _ _ _ _ Hv) in *.
  rewrite get_video_info_rest_stages in *.
  destruct (catch_OSError (getsize video_path) w1) as [[e|file_size] w2]
    eqn:Hc; rewrite (bind_run _ _ _ _ _ Hc) in *; [discriminate|].
  unfold bind, lift, ret in *.
  destruct (video_info_dict video_path (clip_meta eng video) file_size)
    as [e|info] eqn:Hd; [discriminate|].
  destruct (close video w2) as [[e|u] w3]; [discriminate|].
  by exists file_size, info.
Qed.

(** X12.  A successful [get_video_info] reports the attributes of the clip
    it opened: the path as given, its base name, and the clip's duration,
    frame rate, size, width and height, none of them overwritten by the
    reader's or the audio track's fields merged in later.  The aspect
    ratio is [round(w / h, 2)], the quotient and the rounding being
    Python's, and [None] for a clip of height 0 (no division is
    attempted); [total_frames] is reported only for a positive duration:
    it is [None] at frame rate 0 and [int(fps * duration)] otherwise, the
    product being the floats' (a product that is NaN or infinite fails
    the call); [has_audio] tells whether the clip has an audio track, and
    the fourteen keys of [info_keys] are always present. *)
Theorem X12_video_info_reports_clip video_path w video w1 :
  VideoFileClip video_path w = (inr video, w1) ->
  success (fst (get_video_info video_path w)) = true ->
  let m := clip_meta eng video in
  exists info,
    video_info (fst (get_video_info video_path w)) = Some info
    /\ dict_get "file_path" info = Some (VStr video_path)
    /\ dict_get "filename" info = Some (VStr (os_path_basename video_path))
    /\ dict_get "duration" info = Some (VFloat (duration m))
    /\ dict_get "fps" info = Some (VFloat (fps m))
    /\ dict_get "size" info = Some (VPair (VInt (clip_w m)) (VInt (clip_h m)))
    /\ dict_get "width" info = Some (VInt (clip_w m))
    /\ dict_get "height" info = Some (VInt (clip_h m))
    /\ dict_get "aspect_ratio" info
       = Some (if (0 <? clip_h m)%Z
               then VFloat (py_round2 (int_truediv (clip_w m) (clip_h m)))
               else VNone)
    /\ (if (0 <? duration m)%float
        then if float_truthy (fps m)
             then exists n,
                    py_int (fps m * duration m)%float = inr n
                    /\ dict_get "total_frames" info = Some (VInt n)
             else dict_get "total_frames" info = Some VNone
        else dict_get "total_frames" info = None)
    /\ dict_get "has_audio" info
       = Some (VBool (match audio m with Some _ => true | None => false end))
    /\ Forall (fun k => is_Some (dict_get k info)) info_keys.
Proof.
  intros Hv Hs m.
  destruct (get_video_info_success _ _ _ _ Hv Hs)
    as (file_size & info & _ & Hd & Hi).
  fold m in Hd. exists info. split; [done|].
  pose proof (fun k => video_info_dict_other k _ _ _ _ Hd) as Ho.
  split_and!;
    try (rewrite Ho, sized_info_basic by reflexivity; reflexivity).
  - unfold video_info_dict, total_frames_of in Hd. cbv zeta in Hd.
    destruct (0 <? duration m)%float.
    + destruct (float_truthy (fps m)).
      * destruct (py_int _) as [e|n]; simplify_eq.
        exists n. split; [done|]. apply with_metrics_total_frames.
      * simplify_eq. apply with_metrics_total_frames.
    + simplify_eq. by apply sized_info_no_metrics.
  - rewrite Ho by reflexivity. unfold sized_info.
    by rewrite with_file_size_other, audio_info_has_audio.
  - unfold info_keys. rewrite !Forall_cons, Forall_nil.
    rewrite !Ho by reflexivity. rewrite !sized_info_basic by reflexivity.
    pose proof (audio_info_keys m
                  (with_reader_info m (basic_info video_path m))) as Ha.
    rewrite !Forall_cons, Forall_nil in Ha.
    destruct Ha as (Ha1 & Ha2 & Ha3 & Ha4 & _).
    unfold sized_info.
    rewrite !with_file_size_bytes, !with_file_size_mb.
    rewrite !with_file_size_other by reflexivity.
    split_and!; try done; by eexists.
Qed.

Lemma video_info_dict_size video_path m file_size info :
  video_info_dict video_path m file_size = inr info ->
  dict_get "file_size_bytes" info = Some (opt_val VInt file_size)
  /\ dict_get "file_size_mb" info
     = Some (match file_size with
             | Some n => VFloat (py_round2 (int_truediv n (1024 * 1024)))
             | None => VNone
             end)
  /\ dict_get "average_bitrate_kbps" info
     = match file_size with
       | Some n =>
           if (0 <? duration m)%float && negb (n =? 0)%Z
           then Some (VFloat (py_round2 (float_of_int (n * 8)
                                         / (duration m * 1000))%float))
           else None
       | None => None
       end.
Proof.
  intros Hd. split_and!.
  - rewrite (video_info_dict_other _ _ _ _ _ Hd) by reflexivity.
    apply with_file_size_bytes.
  - rewrite (video_info_dict_other _ _ _ _ _ Hd) by reflexivity.
    apply with_file_size_mb.
  - unfold video_info_dict in Hd. cbv zeta in Hd.
    destruct (0 <? duration m)%float; simpl.
    + destruct (total_frames_of m) as [e|tf]; simplify_eq.
      rewrite (with_metrics_bitrate _ _ _ file_size).
      * destruct file_size as [n|]; [|done]. by destruct (n =? 0)%Z.
      * apply with_file_size_bytes.
      * by apply sized_info_no_metrics.
    + simplify_eq. rewrite sized_info_no_metrics by reflexivity.
      by destruct file_size.
Qed.

(** X13.  The file size is optional in [get_video_info].  When
    [os.path.getsize] raises an [OSError] on a clip that was opened, the
    call goes on: it succeeds when [total_frames] can be computed and the
    clip can be closed, and reports [file_size_bytes] and [file_size_mb]
    as [None] and no [average_bitrate_kbps].  Any other exception of
    [getsize] fails the call with that exception.  When the size [n] is
    known it is reported as it is, [file_size_mb] is
    [round(n / (1024 * 1024), 2)], and [average_bitrate_kbps] is
    [round((n * 8) / (duration * 1000), 2)], computed on floats as Python
    does, exactly when the duration is positive and the size is not 0. *)
Theorem X13_file_size_is_optional video_path w video w1 :
  VideoFileClip video_path w = (inr video, w1) ->
  let r := get_video_info video_path w in
  let m := clip_meta eng video in
  match getsize video_path w1 with
  | (inl e, w2) =>
      if is_OSError e then
        (success (fst r) = true
         <-> ((0 <? duration m)%float = true ->
              exists total_frames, total_frames_of m = inr total_frames)
             /\ exists w3, close video w2 = (inr tt, w3))
        /\ forall info,
             video_info (fst r) = Some info ->
             dict_get "file_size_bytes" info = Some VNone
             /\ dict_get "file_size_mb" info = Some VNone
             /\ dict_get "average_bitrate_kbps" info = None
      else fst r = failed e None
  | (inr n, w2) =>
      forall info,
        video_info (fst r) = Some info ->
        dict_get "file_size_bytes" info = Some (VInt n)
        /\ dict_get "file_size_mb" info
           = Some (VFloat (py_round2 (int_truediv n (1024 * 1024))))
        /\ dict_get "average_bitrate_kbps" info
           = if (0 <? duration m)%float && negb (n =? 0)%Z
             then Some (VFloat (py_round2 (float_of_int (n * 8)
                                           / (duration m * 1000))%float))
             else None
  end.
Proof.
  intros Hv r m. subst r. rewrite (get_video_info_fst _ _ _ _ Hv).
  rewrite get_video_info_rest_stages. fold m.
  destruct (getsize video_path w1) as [[e|n] w2] eqn:Hg.
  - assert (catch_OSError (getsize video_path) w1
            = if is_OSError e then (inr None, w2) else (inl e, w2)) as Hc
      by (unfold catch_OSError; by rewrite Hg).
    destruct (is_OSError e); rewrite (bind_run _ _ _ _ _ Hc); [|done].
    unfold bind, lift, ret.
    destruct (video_info_dict video_path m None) as [e'|info] eqn:Hd.
    + split; [|done]. split; [done|]. intros [Ht _].
      unfold video_info_dict in Hd. cbv zeta in Hd.
      destruct (0 <? duration m)%float; [|done].
      destruct (Ht eq_refl) as [tf Htf]. by rewrite Htf in Hd.
    + destruct (close video w2) as [[e'|[]] w3]; simpl.
      * split; [|done]. split; [done|]. by intros [_ [? [=]]].
      * split.
        -- split; [|done]. intros _. split; [|eauto]. intros Hpos.
           unfold video_info_dict in Hd. cbv zeta in Hd. rewrite Hpos in Hd.
           destruct (total_frames_of m) as [?|tf]; [done|]. eauto.
        -- intros info' [= <-].
           apply (video_info_dict_size video_path m None info Hd).
  - assert (catch_OSError (getsize video_path) w1 = (inr (Some n), w2)) as Hc
      by (unfold catch_OSError; by rewrite Hg).
    rewrite (bind_run _ _ _ _ _ Hc). unfold bind, lift, ret.
    destruct (video_info_dict video_path m (Some n)) as [e'|info] eqn:Hd;
      [done|].
    destruct (close video w2) as [[e'|[]] w3]; simpl; [done|].
    intros info' [= <-].
    apply (video_info_dict_size video_path m (Some n) info Hd).
Qed.

(** *** The order of the calls of [split_video_at_times] *)

Lemma split_segments_trace video bounds :
  forall w,
    exists k,
      trace (snd (split_segments video bounds w))
      = (trace w ++ repeat (EvEngine OpSubclip) k)%list
      /\ (k <= pred (length bounds))%nat
      /\ (forall segs, fst (split_segments video bounds w) = inr segs ->
            k = pred (length bounds) /\ length segs = k).
Proof.
  induction bounds as [|b1 [|b2 bounds] IH]; intros w.
  1,2: exists 0%nat; simpl; rewrite app_nil_r; split_and!;
         [done|done|by intros ? [= <-]].
  change (split_segments video (b1 :: b2 :: bounds))
    with (segment <- subclip video b1 b2 ;;
          segments <- split_segments video (b2 :: bounds) ;;
          ret (segment :: segments)).
  destruct (engine_run OpSubclip (e_subclip eng video b1 b2) w)
    as (r & s & Hsub).
  fold (subclip video b1 b2) in Hsub. rewrite !(bind_run _ _ _ _ _ Hsub).
  destruct r as [e|seg].
  - exists 1%nat. simpl. split_and!; [done|lia|done].
  - match goal with
    | |- context [bind _ _ ?w0] =>
        destruct (IH w0) as (k & Ht & Hk & Hok);
        destruct (split_segments video (b2 :: bounds) w0)
          as [[e|segs] w2] eqn:Hss;
        rewrite !(bind_run _ _ _ _ _ Hss)
    end; simpl in *; exists (S k); rewrite Ht, <- app_assoc.
    + split_and!; [done|lia|done].
    + destruct (Hok segs eq_refl) as [-> <-].
      split_and!; [done|lia|]. by intros ? [= <-].
Qed.

Lemma write_segments_trace output_path output_name segs :
  forall i w,
    exists j,
      trace (snd (write_segments output_path output_name i segs w))
      = (trace w ++ repeat (EvEngine OpWriteVideofile) j)%list
      /\ (j <= length segs)%nat
      /\ (forall paths,
            fst (write_segments output_path output_name i segs w) = inr paths
            -> j = length segs).
Proof.
  induction segs as [|seg segs IH]; intros i w.
  - exists 0%nat. simpl. by rewrite app_nil_r.
  - cbn [write_segments]. cbv zeta.
    match goal with
    | |- context [write_videofile ?c ?p ?kw] =>
        destruct (engine_run OpWriteVideofile (e_write_videofile eng c p kw)
                    w) as (r & s & Hw);
        fold (write_videofile c p kw) in Hw
    end.
    rewrite !(bind_run _ _ _ _ _ Hw). destruct r as [e|[]].
    + exists 1%nat. simpl. split_and!; [done|lia|done].
    + match goal with
      | |- context [bind _ _ ?w0] =>
          destruct (IH (S i) w0) as (j & Ht & Hj & Hok);
          destruct (write_segments output_path output_name (S i) segs w0)
            as [[e|paths] w2] eqn:Hws;
          rewrite !(bind_run _ _ _ _ _ Hws)
      end; simpl in *; exists (S j); rewrite Ht, <- app_assoc.
      * split_and!; [done|lia|done].
      * rewrite (Hok paths eq_refl). by split_and!.
Qed.

Lemma store_segments_trace segs :
  forall w,
    exists refs,
      fst (store_segments segs w) = inr refs
      /\ length refs = length segs
      /\ trace (snd (store_segments segs w))
         = (trace w ++ map EvVideoStoreStore refs)%list.
Proof.
  induction segs as [|seg segs IH]; intros w.
  - exists []. simpl. by rewrite app_nil_r.
  - cbn [store_segments].
    assert (VideoStore_store seg w
            = (inr (fresh (dom (video_store w))),
               snd (VideoStore_store seg w))) as Hst by done.
    rewrite !(bind_run _ _ _ _ _ Hst).
    destruct (IH (snd (VideoStore_store seg w))) as (refs & Hf & Hl & Ht).
    destruct (store_segments segs (snd (VideoStore_store seg w)))
      as [[e|refs'] w2] eqn:Hss; simpl in Hf; [discriminate|].
    injection Hf as ->. rewrite !(bind_run _ _ _ _ _ Hss).
    eexists (_ :: refs). simpl in *. rewrite Ht, <- app_assoc. simpl.
    by rewrite Hl.
Qed.

(** What [VideoStore.load] does: a lookup, and for an unknown identifier
    one attempt to open it. *)
Lemma load_events identifier w :
  exists pre,
    trace (snd (VideoStore_load identifier w)) = (trace w ++ pre)%list
    /\ Forall (fun ev => ev = EvVideoStoreLoad identifier
                         \/ ev = EvEngine OpVideoFileClip) pre.
Proof.
  unfold VideoStore_load, VideoFileClip, engine, log_event.
  destruct (video_store w !! identifier); simpl.
  - exists [EvVideoStoreLoad identifier]. split; [done|]. by repeat constructor.
  - destruct (e_VideoFileClip eng identifier (engine_state w)) as [[e|c] s];
      simpl; rewrite <- app_assoc;
      (exists [EvVideoStoreLoad identifier; EvEngine OpVideoFileClip]);
      (split; [done|]); rewrite !Forall_cons, Forall_nil; auto.
Qed.

(** X14.  [split_video_at_times] cuts every segment before it writes or
    stores any.  After resolving the input, it calls [subclip] at most
    [n + 1] times for [n] split times and stops at the first that raises;
    only when all [n + 1] segments are cut does it start on the outputs:
    [write_videofile] calls and nothing else with [return_path] true,
    stopping at the first that raises (the files written before it are
    left in place), registrations in the store and nothing else
    otherwise.  On success there are [n + 1] outputs. *)
Theorem X14_split_cuts_before_output video_path split_times output_name
    return_path w :
  let r := run (SplitVideoAtTimes video_path split_times output_name
                  return_path) w in
  exists pre cuts outs,
    trace (snd r)
    = (trace w ++ pre ++ repeat (EvEngine OpSubclip) cuts ++ outs)%list
    /\ Forall (fun ev => ev = EvVideoStoreLoad video_path
                         \/ ev = EvEngine OpVideoFileClip) pre
    /\ (cuts <= S (length split_times))%nat
    /\ (outs <> [] -> cuts = S (length split_times))
    /\ (if return_path
        then outs = repeat (EvEngine OpWriteVideofile) (length outs)
        else exists refs, outs = map EvVideoStoreStore refs)
    /\ (length outs <= cuts)%nat
    /\ (success (fst r) = true -> length outs = S (length split_times)).
Proof.
  cbv zeta. unfold run, tool_of, split_video_at_times.
  rewrite invoke_finish. cbv zeta.
  destruct (load_events video_path w) as (pre & Hpre & HP).
  destruct (VideoStore_load video_path w) as [[e|video] w1] eqn:Hl;
    rewrite !(bind_run _ _ _ _ _ Hl); simpl in Hpre.
  { exists pre, 0%nat, []. simpl. rewrite Hpre, app_nil_r.
    split_and!; try done; try lia. by destruct return_path; [|exists []]. }
  set (bounds := ([0%float] ++ split_times ++ [duration (clip_meta eng video)])
                 %list).
  assert (pred (length bounds) = S (length split_times)) as Hlen
    by (unfold bounds; simpl; rewrite length_app; simpl; lia).
  destruct (split_segments_trace video bounds w1) as (k & Hk & Hle & Hok).
  destruct (split_segments video bounds w1) as [[e|segs] w2] eqn:Hss;
    rewrite !(bind_run _ _ _ _ _ Hss); simpl in Hk, Hok.
  { exists pre, k, []. simpl. rewrite Hk, Hpre, app_nil_r, <- app_assoc.
    split_and!; try done; try lia. by destruct return_path; [|exists []]. }
  destruct (Hok segs eq_refl) as [Hk' Hsegs]. clear Hok.
  destruct return_path.
  - destruct (write_segments_trace (get_output_path output_name) output_name
                segs 0 w2) as (j & Hj & Hjle & Hjok).
    destruct (write_segments _ _ 0%nat segs w2) as [[e|paths] w3] eqn:Hws;
      rewrite !(bind_run _ _ _ _ _ Hws);
      simpl in *; exists pre, k, (repeat (EvEngine OpWriteVideofile) j);
      rewrite Hj, Hk, Hpre, <- !app_assoc, repeat_length;
      split_and!; try done; try lia.
    intros _. rewrite (Hjok paths eq_refl). lia.
  - destruct (store_segments_trace segs w2) as (refs & Hf & Hl' & Ht).
    destruct (store_segments segs w2) as [[e|refs'] w3] eqn:Hst;
      simpl in Hf; [discriminate|]. injection Hf as ->.
    rewrite !(bind_run _ _ _ _ _ Hst). simpl in *.
    exists pre, k, (map EvVideoStoreStore refs).
    rewrite Ht, Hk, Hpre, <- !app_assoc, length_map.
    split_and!; try done; try lia. by exists refs.
Qed.

(** X15.  A failure envelope without [error_type] means that nothing
    happened: whatever the tool, such a call made no engine call, did not
    look into a store, logged nothing and left both stores as they were.
    Every rejection is decided on the arguments before the input is
    resolved. *)
Theorem X15_rejection_touches_nothing (c : Call) w :
  success (fst (run c w)) = false ->
  error_type (fst (run c w)) = None ->
  snd (run c w) = w.
Proof.
  intros Hs He. pose proof (run_outcome c w) as Ho.
  destruct (tool_try (tool_of c) w) as [[e|env] w1] eqn:Htry.
  { destruct Ho as [msg Ho]. by rewrite Ho in He. }
  rewrite Ho in Hs. clear Ho He.
  destruct (return_path_of c) as [rp|] eqn:Hrp.
  2: { destruct c; try discriminate. simpl in Htry.
       unfold get_video_info_try, get_video_info_rest in Htry.
       inv_try Htry. discriminate. }
  rewrite run_invoke by (rewrite Hrp; eauto).
  unfold invoke. rewrite Htry. simpl. clear Hrp.
  destruct c; simpl in Htry;
    try (unfold get_video_info_try, get_video_info_rest in Htry);
    inv_try Htry; done.
Qed.

End ToolLayer.

(** ** Examples on the reference engine *)

(** The scenario of the spec: a trim to an object, then a fade in of that
    object to a file; only the second call writes. *)
Example trim_then_fadein :
  let r1 := run sim_engine sim_output_path
                (TrimVideo "in.mp4" 2 5 "t.mp4" false) sim_world in
  let r2 := run sim_engine sim_output_path
                (FadeinVideo "0" 1 "f.mp4" true) (snd r1) in
  fst r1 = ok_object (ORef "0") None
  /\ engine_state (snd r1) = engine_state sim_world
  /\ fst r2 = ok_path "/out/f.mp4" "Fade in effect added successfully"
  /\ engine_state (snd r2)
     = [("/out/f.mp4", mkSimClip 3 24 640 480); ("in.mp4", sim_clip)].
Proof. vm_compute. done. Qed.

(** A merge of the video with itself lasts twice as long. *)
Example merge_twice :
  let r := run sim_engine sim_output_path
               (MergeVideo "in.mp4" "in.mp4" "m.mp4" true) sim_world in
  fst r = ok_path "/out/m.mp4" "Videos merged successfully"
  /\ engine_state (snd r)
     = [("/out/m.mp4", mkSimClip 20 24 640 480); ("in.mp4", sim_clip)].
Proof. vm_compute. done. Qed.

(** A crop with [x2 <= x1] is rejected before anything is touched. *)
Example crop_rejected :
  run sim_engine sim_output_path
      (CropVideo "in.mp4" 10 0 10 20 "c.mp4" true) sim_world
  = (invalid
       "Invalid crop coordinates. x2 > x1 and y2 > y1, all values must be non-negative"
       "Invalid crop parameters",
     sim_world).
Proof. reflexivity. Qed.

(** A negative end counts from the end of the clip: [subclip(0, -2)] of
    the ten-second clip lasts 8 seconds. *)
Example subclip_negative_end :
  fst (sim_subclip sim_clip 0 (-2) []) = inr (mkSimClip 8 24 640 480).
Proof. vm_compute. done. Qed.

(** Python's arithmetic on three inputs: [round(107 / 40, 2)] is 2.67, the
    quotient being the float just below 2.675;
    [int((30000 / 1001) * 10.01)] is 300; and
    [round((2675 * 8) / (8.0 * 1000), 2)] is 2.67. *)
Example python_arithmetic :
  py_round2 (int_truediv 107 40) = 2.67%float
  /\ py_int ((30000 / 1001) * 10.01)%float = inr 300%Z
  /\ py_round2 (float_of_int (2675 * 8) / (8 * 1000))%float = 2.67%float.
Proof. vm_compute. done. Qed.

(** [get_video_info] on the video of 107 by 40 pixels, a file of a
    million bytes. *)
Example video_info_ntsc :
  let r := get_video_info sim_engine "n.mp4" sim_world_ntsc in
  exists info,
    video_info (fst r) = Some info
    /\ dict_get "aspect_ratio" info = Some (VFloat 2.67)
    /\ dict_get "total_frames" info = Some (VInt 300)
    /\ dict_get "file_size_mb" info = Some (VFloat 0.95)
    /\ dict_get "average_bitrate_kbps" info = Some (VFloat 799.2).
Proof. vm_compute. by eexists. Qed.

(** C1, counterexample: [get_video_info] succeeds on a file and its
    envelope carries none of the four output fields. *)
Lemma C1_counterexample_get_video_info :
  let env := fst (run sim_engine sim_output_path
                      (GetVideoInfo "in.mp4") sim_world) in
  success env = true /\ output_fields env = 0 /\ is_Some (video_info env).
Proof. vm_compute. eauto. Qed.


(** C4, counterexample: the durations of the segments need not sum to
    the duration of the clip.  The seven-second video split at 1.1 and
    5.2: each segment lasts the difference of its boundaries, rounded as
    floats are, and the three durations sum to 6.999999999999999; summed
    as real numbers they are [2^-51] short of 7. *)
Lemma C4_counterexample_durations :
  let r := run sim_engine sim_output_path
               (SplitVideoAtTimes "in.mp4" [1.1; 5.2]%float "part" false)
               sim_world_7 in
  let durations :=
    omap (fun ref => sim_duration <$> video_store (snd r) !! ref)
         ["0"; "1"; "2"] in
  success (fst r) = true
  /\ output_objects (fst r) = Some ["0"; "1"; "2"]
  /\ durations = [1.1; 4.1; 1.7999999999999998]%float
  /\ py_sum durations = 6.999999999999999%float
  /\ (py_sum durations =? 7)%float = false
  /\ exists s, exact_sum durations = Some s
               /\ Qeq_bool s (7 - Qpower 2 (-51)) = true
               /\ Qeq_bool s 7 = false.
Proof. vm_compute. split_and!; try done. by eexists. Qed.

(** C5, counterexample: the split time 0 is outside the open interval
    (0, 10), and the call succeeds with two registered segments. *)
Lemma C5_counterexample_split_at_zero :
  let r := run sim_engine sim_output_path
               (SplitVideoAtTimes "in.mp4" [0%float] "part" false)
               sim_world in
  success (fst r) = true
  /\ output_objects (fst r) = Some ["0"; "1"]
  /\ trace (snd r)
     = [EvVideoStoreLoad "in.mp4"; EvEngine OpVideoFileClip;
        EvEngine OpSubclip; EvEngine OpSubclip;
        EvVideoStoreStore "0"; EvVideoStoreStore "1"].
Proof. vm_compute. done. Qed.

(** C6, counterexample: the reference ["0"] resolves in the store, and
    [get_video_info] on it fails, having only asked the engine to open a
    file of that name. *)
Lemma C6_counterexample_get_video_info_reference :
  let r := run sim_engine sim_output_path
               (GetVideoInfo "0") sim_world_ref in
  fst (VideoStore_load sim_engine "0" sim_world_ref) = inr sim_clip
  /\ success (fst r) = false
  /\ error_type (fst r) = Some "OSError"
  /\ trace (snd r) = [EvEngine OpVideoFileClip].
Proof. vm_compute. done. Qed.

(** C7, counterexample: [extract_frames] with [return_path] false succeeds
    with raw frames under [output_object], and registers nothing. *)
Lemma C7_counterexample_extract_frames :
  let r := run sim_engine sim_output_path
               (ExtractFrames "in.mp4" 0 1 2 "frames" false)
               sim_world in
  success (fst r) = true
  /\ output_object (fst r) = Some (OFrames [0; 1]%nat)
  /\ video_store (snd r) = video_store sim_world.
Proof. vm_compute. done. Qed.


(** C4, witness: the ten-second video split at 2 and 5 on the reference
    engine, into references and into files. *)
Lemma C4_witness :
  let bounds := [0; 2; 5; 10]%float in
  let r := run sim_engine sim_output_path
               (SplitVideoAtTimes "in.mp4" [2; 5]%float "part" false)
               sim_world in
  let r' := run sim_engine sim_output_path
                (SplitVideoAtTimes "in.mp4" [2; 5]%float "part" true)
                sim_world in
  (success (fst r) = true
   /\ exists video w1 segs st,
        VideoStore_load sim_engine "in.mp4" sim_world = (inr video, w1)
        /\ cuts sim_engine video
                 (0%float :: [2; 5]%float ++ [clip_duration sim_engine video])
                 (engine_state w1) segs st
        /\ length segs = 3
        /\ (forall (i : nat) seg, segs !! i = Some seg ->
              exists b1 b2 st0 st1,
                (0%float :: [2; 5]%float
                   ++ [clip_duration sim_engine video]) !! i = Some b1
                /\ (0%float :: [2; 5]%float
                      ++ [clip_duration sim_engine video]) !! S i = Some b2
                /\ sim_subclip video b1 b2 st0 = (inr seg, st1))
        /\ exists refs,
             output_objects (fst r) = Some refs
             /\ length refs = 3
             /\ Forall2 (fun ref seg => video_store (snd r) !! ref = Some seg)
                        refs segs
             /\ engine_state (snd r) = st)
  /\ (success (fst r') = true
      /\ exists video w1 segs st,
           VideoStore_load sim_engine "in.mp4" sim_world = (inr video, w1)
           /\ cuts sim_engine video
                    (0%float :: [2; 5]%float
                       ++ [clip_duration sim_engine video])
                    (engine_state w1) segs st
           /\ length segs = 3
           /\ (forall (i : nat) seg, segs !! i = Some seg ->
                 exists b1 b2 st0 st1,
                   (0%float :: [2; 5]%float
                      ++ [clip_duration sim_engine video]) !! i = Some b1
                   /\ (0%float :: [2; 5]%float
                         ++ [clip_duration sim_engine video]) !! S i
                      = Some b2
                   /\ sim_subclip video b1 b2 st0 = (inr seg, st1))
           /\ exists paths,
                output_paths (fst r') = Some paths
                /\ length paths = 3
                /\ written sim_engine (zip segs paths) st
                           (engine_state (snd r'))
                /\ video_store (snd r') = video_store sim_world).
Proof.
  split.
  - split; [reflexivity|].
    apply (C4_split_segments sim_engine sim_output_path "in.mp4"
             [2; 5]%float "part" false sim_world).
    reflexivity.
  - split; [reflexivity|].
    apply (C4_split_segments sim_engine sim_output_path "in.mp4"
             [2; 5]%float "part" true sim_world).
    reflexivity.
Defined.

(** C6, witness: a trim of the cached reference ["0"]. *)
Lemma C6_witness :
  let r := run sim_engine sim_output_path
               (TrimVideo "0" 2 5 "t.mp4" false) sim_world_ref in
  cached ["0"] (video_store sim_world_ref)
  /\ Forall (fun id =>
               exists clip,
                 video_store sim_world_ref !! id = Some clip
                 /\ VideoStore_load sim_engine id sim_world_ref
                    = (inr clip,
                       log_event (EvVideoStoreLoad id) sim_world_ref))
            ["0"]
  /\ ((snd r = sim_world_ref /\ success (fst r) = false)
      \/ exists rest,
           trace (snd r)
           = (trace sim_world_ref ++ [EvVideoStoreLoad "0"] ++ rest)%list
           /\ Forall no_decode rest).
Proof.
  assert (Hc : cached ["0"] (video_store sim_world_ref)).
  { constructor; [|constructor]. exists sim_clip. reflexivity. }
  split; [exact Hc|].
  apply (C6_resolves_through_store sim_engine sim_output_path
           (TrimVideo "0" 2 5 "t.mp4" false) sim_world_ref Hc).
Defined.

(** C7, witness: a trim of the file with [return_path] false. *)
Lemma C7_witness :
  let r := run sim_engine sim_output_path
               (TrimVideo "in.mp4" 2 5 "t.mp4" false) sim_world in
  success (fst r) = true
  /\ exists ref clip,
       output_object (fst r) = Some (ORef ref)
       /\ video_store sim_world !! ref = None
       /\ video_store (snd r) = <[ref := clip]> (video_store sim_world)
       /\ exists operate w1,
            resulting_clip sim_engine (TrimVideo "in.mp4" 2 5 "t.mp4" false)
            = Some operate
            /\ operate sim_world = (inr clip, w1)
            /\ VideoStore_store clip w1 = (inr ref, snd r).
Proof.
  split; [reflexivity|].
  apply (C7_object_registered sim_engine sim_output_path
           (TrimVideo "in.mp4" 2 5 "t.mp4" false) sim_world);
    reflexivity.
Defined.

(** C10, witness: a trim of a file that does not exist. *)
Lemma C10_witness :
  let c := TrimVideo "missing.mp4" 2 5 "t.mp4" true in
  let env := fst (run sim_engine sim_output_path c sim_world) in
  success env = false
  /\ (is_Some (error_type env)
      <-> exists e w1,
            tool_try (tool_of sim_engine sim_output_path c) sim_world
            = (inl e, w1))
  /\ match tool_try (tool_of sim_engine sim_output_path c) sim_world with
     | (inl e, _) =>
         error_type env = Some (exn_type e)
         /\ error env = Some (exn_msg e)
     | (inr _, _) =>
         error_type env = None
         /\ is_Some (error env) /\ is_Some (message env)
     end.
Proof.
  split; [reflexivity|].
  apply (C10_error_type_iff_handler sim_engine sim_output_path
           (TrimVideo "missing.mp4" 2 5 "t.mp4" true) sim_world).
  reflexivity.
Defined.

(** ** Instances of the further properties *)

(** X2, witness: the cached reference ["0"] after a trim of it and a
    grayscale of it. *)
Lemma X2_witness :
  let cs := [TrimVideo "0" 2 5 "t.mp4" false;
             GrayscaleVideo "0" "g.mp4" true] in
  let w' := run_all sim_engine sim_output_path cs sim_world_ref in
  video_store sim_world_ref !! "0" = Some sim_clip
  /\ video_store w' !! "0" = Some sim_clip
  /\ VideoStore_load sim_engine "0" w'
     = (inr sim_clip, log_event (EvVideoStoreLoad "0") w').
Proof.
  split; [reflexivity|].
  apply (X2_references_persist sim_engine sim_output_path
           [TrimVideo "0" 2 5 "t.mp4" false;
            GrayscaleVideo "0" "g.mp4" true]
           sim_world_ref "0" sim_clip).
  reflexivity.
Defined.

(** X3, witness: a trim of a file that does not exist, to be stored. *)
Lemma X3_witness :
  let r := run sim_engine sim_output_path
               (TrimVideo "missing.mp4" 2 5 "t.mp4" false) sim_world in
  (success (fst r) = false
   \/ return_path_of (TrimVideo "missing.mp4" 2 5 "t.mp4" false)
      <> Some false)
  /\ video_store (snd r) = video_store sim_world.
Proof.
  split; [left; reflexivity|].
  apply (X3_store_changes_only_on_stored_success sim_engine sim_output_path
           (TrimVideo "missing.mp4" 2 5 "t.mp4" false) sim_world).
  left. reflexivity.
Defined.

(** X4, witness: the reference a trim of the file returns. *)
Lemma X4_witness :
  let r := run sim_engine sim_output_path
               (TrimVideo "in.mp4" 2 5 "t.mp4" false) sim_world in
  output_object (fst r) = Some (ORef "0")
  /\ exists clip,
       video_store sim_world !! "0" = None
       /\ video_store (snd r) !! "0" = Some clip
       /\ forall cs,
            fst (VideoStore_load sim_engine "0"
                   (run_all sim_engine sim_output_path cs (snd r)))
            = inr clip.
Proof.
  split; [reflexivity|].
  apply (X4_returned_references_resolve sim_engine sim_output_path
           (TrimVideo "in.mp4" 2 5 "t.mp4" false) sim_world "0").
  left. reflexivity.
Defined.

(** X5, witness: a trim of the file with [return_path] false. *)
Lemma X5_witness :
  let c := TrimVideo "in.mp4" 2 5 "t.mp4" false in
  return_path_of c <> Some true
  /\ exists evs,
       trace (snd (run sim_engine sim_output_path c sim_world))
       = (trace sim_world ++ evs)%list
       /\ Forall no_write evs.
Proof.
  split; [simpl; congruence|].
  apply (X5_no_file_written sim_engine sim_output_path
           (TrimVideo "in.mp4" 2 5 "t.mp4" false) sim_world).
  simpl. congruence.
Defined.

(** X6, witness: a trim of the file written to [t.mp4]. *)
Lemma X6_witness :
  let c := TrimVideo "in.mp4" 2 5 "t.mp4" true in
  let r := run sim_engine sim_output_path c sim_world in
  return_path_of c = Some true
  /\ success (fst r) = true
  /\ output_path (fst r) = Some (sim_output_path "t.mp4")
  /\ exists evs,
       trace (snd r) = (trace sim_world ++ evs)%list
       /\ last evs = Some (EvEngine OpWriteVideofile).
Proof.
  split; [reflexivity|]. split; [reflexivity|].
  apply (X6_output_path_resolved sim_engine sim_output_path
           (TrimVideo "in.mp4" 2 5 "t.mp4" true) sim_world);
    reflexivity.
Defined.

(** X7, witness: the ten-second video split at 2 and 5 into files. *)
Lemma X7_witness :
  let r := run sim_engine sim_output_path
               (SplitVideoAtTimes "in.mp4" [2; 5]%float "part" true)
               sim_world in
  success (fst r) = true
  /\ output_paths (fst r)
     = Some (map (segment_path (sim_output_path "part") "part")
                 (seq 0 3))
  /\ NoDup (map (segment_path (sim_output_path "part") "part") (seq 0 3)).
Proof.
  split; [reflexivity|].
  apply (X7_split_paths sim_engine sim_output_path "in.mp4"
           [2; 5]%float "part" sim_world).
  reflexivity.
Defined.

(** X8, witness: a trim whose start is after its end. *)
Lemma X8_witness :
  let c := TrimVideo "in.mp4" 5 2 "out.mp4" true in
  let r := run sim_engine sim_output_path c sim_world in
  success (fst r) = false
  /\ error_type (fst r) = None
  /\ (spec_precondition c = false \/ call_text_blank c = true).
Proof.
  split; [reflexivity|]. split; [reflexivity|].
  apply (X8_validation_rejects_only_invalid sim_engine sim_output_path
           (TrimVideo "in.mp4" 5 2 "out.mp4" true) sim_world);
    reflexivity.
Defined.

(** X9, witness: a text of a no-break space, a space and an em space. *)
Lemma X9_witness :
  blank [160; 32; 8195]%N = true
  /\ run sim_engine sim_output_path
         (AddTextOverlay "in.mp4" [160; 32; 8195]%N 10 10 24 "white" 3
                         "o.mp4" true "/usr/bin/convert")
         sim_world
     = (invalid "Text cannot be empty" "Invalid text parameter", sim_world).
Proof.
  split; [reflexivity|].
  apply (X9_blank_text_rejected sim_engine sim_output_path
           "in.mp4" [160; 32; 8195]%N 10 10 24 "white" 3 "o.mp4" true
           "/usr/bin/convert" sim_world).
  reflexivity.
Defined.

(** X12, witness: the ten-second video on disk. *)
Lemma X12_witness :
  let r := get_video_info sim_engine "in.mp4" sim_world in
  let m := clip_meta sim_engine sim_clip in
  VideoFileClip sim_engine "in.mp4" sim_world
  = (inr sim_clip, snd (VideoFileClip sim_engine "in.mp4" sim_world))
  /\ success (fst r) = true
  /\ exists info,
       video_info (fst r) = Some info
       /\ dict_get "file_path" info = Some (VStr "in.mp4")
       /\ dict_get "filename" info = Some (VStr (os_path_basename "in.mp4"))
       /\ dict_get "duration" info = Some (VFloat (duration m))
       /\ dict_get "fps" info = Some (VFloat (fps m))
       /\ dict_get "size" info
          = Some (VPair (VInt (clip_w m)) (VInt (clip_h m)))
       /\ dict_get "width" info = Some (VInt (clip_w m))
       /\ dict_get "height" info = Some (VInt (clip_h m))
       /\ dict_get "aspect_ratio" info
          = Some (if (0 <? clip_h m)%Z
                  then VFloat (py_round2 (int_truediv (clip_w m)
                                                      (clip_h m)))
                  else VNone)
       /\ (if (0 <? duration m)%float
           then if float_truthy (fps m)
                then exists n,
                       py_int (fps m * duration m)%float = inr n
                       /\ dict_get "total_frames" info = Some (VInt n)
                else dict_get "total_frames" info = Some VNone
           else dict_get "total_frames" info = None)
       /\ dict_get "has_audio" info
          = Some (VBool (match audio m with
                         | Some _ => true
                         | None => false
                         end))
       /\ Forall (fun k => is_Some (dict_get k info)) info_keys.
Proof.
  split; [reflexivity|]. split; [reflexivity|].
  apply (X12_video_info_reports_clip sim_engine "in.mp4" sim_world sim_clip
           (snd (VideoFileClip sim_engine "in.mp4" sim_world)));
    reflexivity.
Defined.

(** X13, witness: the video on a file system that refuses to tell its
    size. *)
Lemma X13_witness :
  let r := get_video_info sim_engine_no_stat "in.mp4" sim_world in
  let w1 := snd (VideoFileClip sim_engine_no_stat "in.mp4" sim_world) in
  let m := clip_meta sim_engine_no_stat sim_clip in
  VideoFileClip sim_engine_no_stat "in.mp4" sim_world = (inr sim_clip, w1)
  /\ is_OSError (mkExn "PermissionError" "Permission denied: in.mp4") = true
  /\ (success (fst r) = true
      <-> ((0 <? duration m)%float = true ->
           exists total_frames, total_frames_of m = inr total_frames)
          /\ exists w3,
               close sim_engine_no_stat sim_clip
                     (snd (getsize sim_engine_no_stat "in.mp4" w1))
               = (inr tt, w3))
  /\ forall info,
       video_info (fst r) = Some info ->
       dict_get "file_size_bytes" info = Some VNone
       /\ dict_get "file_size_mb" info = Some VNone
       /\ dict_get "average_bitrate_kbps" info = None.
Proof.
  split; [reflexivity|]. split; [reflexivity|].
  exact (X13_file_size_is_optional sim_engine_no_stat "in.mp4" sim_world
           sim_clip
           (snd (VideoFileClip sim_engine_no_stat "in.mp4" sim_world))
           eq_refl).
Defined.

(** X15, witness: a crop with [x2 <= x1]. *)
Lemma X15_witness :
  let r := run sim_engine sim_output_path
               (CropVideo "in.mp4" 10 0 10 20 "c.mp4" true) sim_world in
  success (fst r) = false
  /\ error_type (fst r) = None
  /\ snd r = sim_world.
Proof.
  split; [reflexivity|]. split; [reflexivity|].
  apply (X15_rejection_touches_nothing sim_engine sim_output_path
           (CropVideo "in.mp4" 10 0 10 20 "c.mp4" true) sim_world);
    reflexivity.
Defined.
